(** * Redirect generator: Jupyter Book v1 URLs to MyST URLs

    A shallow embedding of [generate_redirects.py] and the properties of its
    slug sanitizer, table-of-contents loader and redirect emitter.

    Conventions of the embedding.
    - A Python [str] is a list of characters.  A character is a code point
      in U+0000..U+00FF, carried by [ascii] (eight bits); on this range
      [str.lower] acts character by character and stays in the range, and
      the regular-expression class [\d] is the ASCII digits.
    - Python exceptions are values of [exn]; a computation that may raise
      returns a [result].
    - The effects of the emitter (directories made, files written, lines
      echoed) are recorded in order in a trace of [event]s.  The emitter is
      given twice: first on a system that performs every operation, then,
      in [Fallible], on a system that may refuse an operation by raising,
      as an operating system does when a path is taken or not writable. *)

From Stdlib Require Import Ascii String List Bool Arith ZArith Lia DecimalString.
Import ListNotations.

Set Warnings "-register-all".

(** ** Python strings *)

Definition str := list ascii.

(** A string literal. *)
Definition lit (s : string) : str := list_ascii_of_string s.
Arguments lit : simpl never.

Definition chr (n : nat) : ascii := ascii_of_nat n.

Definition hyphen : ascii := "-"%char.
Definition slash : ascii := "/"%char.
Definition space : ascii := " "%char.
Definition underscore : ascii := "_"%char.

Module Py.

(** [c.isupper()] for a code point below 256: A-Z, and the Latin-1 capitals
    U+00C0..U+00DE without the multiplication sign U+00D7. *)
Definition is_upper (c : ascii) : bool :=
  let n := nat_of_ascii c in
  ((65 <=? n) && (n <=? 90)) || ((192 <=? n) && (n <=? 222) && negb (n =? 215)).

Definition lower_char (c : ascii) : ascii :=
  if is_upper c then chr (nat_of_ascii c + 32) else c.

(** [s.lower()] *)
Definition lower (s : str) : str := map lower_char s.

(** [s.startswith(prefix)] *)
Fixpoint startswith (prefix s : str) : bool :=
  match prefix, s with
  | [], _ => true
  | _ :: _, [] => false
  | p :: prefix', c :: s' => Ascii.eqb p c && startswith prefix' s'
  end.

(** [s.endswith(suffix)] *)
Definition endswith (suffix s : str) : bool :=
  startswith (rev suffix) (rev s).

(** [s.replace(old, new)] scans [s] from the left; where [old] starts it
    emits [new] and skips the rest of the occurrence ([skip] characters are
    still to be passed over), elsewhere it copies the character. *)
Fixpoint replace_from (old new : str) (skip : nat) (s : str) : str :=
  match s with
  | [] => []
  | c :: s' =>
      match skip with
      | S k => replace_from old new k s'
      | O =>
          if startswith old s
          then new ++ replace_from old new (length old - 1) s'
          else c :: replace_from old new 0 s'
      end
  end.

Definition replace (old new s : str) : str :=
  match old with
  | [] => new ++ flat_map (fun c => c :: new) s
  | _ :: _ => replace_from old new 0 s
  end.

(** [s.split(sep)] for a separator of one character: never the empty list. *)
Fixpoint split (sep : ascii) (s : str) : list str :=
  match s with
  | [] => [[]]
  | c :: s' =>
      if Ascii.eqb c sep then [] :: split sep s'
      else match split sep s' with
           | part :: parts => (c :: part) :: parts
           | [] => [[c]]
           end
  end.

(** [sep.join(parts)] *)
Fixpoint join (sep : str) (parts : list str) : str :=
  match parts with
  | [] => []
  | [part] => part
  | part :: parts' => part ++ sep ++ join sep parts'
  end.

Fixpoint dropwhile (p : ascii -> bool) (s : str) : str :=
  match s with
  | [] => []
  | c :: s' => if p c then dropwhile p s' else s
  end.

Fixpoint takewhile (p : ascii -> bool) (s : str) : str :=
  match s with
  | [] => []
  | c :: s' => if p c then c :: takewhile p s' else []
  end.

(** [s.lstrip(chars)], [s.rstrip(chars)] and [s.strip(chars)], with the
    set [chars] given by its membership test. *)
Definition lstrip (chars : ascii -> bool) (s : str) : str := dropwhile chars s.
Definition rstrip (chars : ascii -> bool) (s : str) : str :=
  rev (dropwhile chars (rev s)).
Definition strip (chars : ascii -> bool) (s : str) : str :=
  rstrip chars (lstrip chars s).

End Py.

(** ** The two regular expressions of the sanitizer *)

Module Re.

Definition is_hyphen (c : ascii) : bool := Ascii.eqb c hyphen.

(** [\d] *)
Definition is_digit (c : ascii) : bool :=
  let n := nat_of_ascii c in (48 <=? n) && (n <=? 57).

(** The class [[\d-]]. *)
Definition digit_or_hyphen (c : ascii) : bool := is_digit c || is_hyphen c.

(** [re.sub(r'-+', repl, s)]: the scan copies every character outside a
    match; a match is a maximal run of hyphens, and [repl] is emitted where
    the run starts.  [in_match] tells that the scan is inside a run. *)
Fixpoint sub_hyphen_runs_from (repl : str) (in_match : bool) (s : str) : str :=
  match s with
  | [] => []
  | c :: s' =>
      if is_hyphen c
      then (if in_match then [] else repl) ++ sub_hyphen_runs_from repl true s'
      else c :: sub_hyphen_runs_from repl false s'
  end.

Definition sub_hyphen_runs (repl s : str) : str :=
  sub_hyphen_runs_from repl false s.

(** [re.sub(r'^[\d-]+', repl, s)]: the pattern is anchored at the start of
    the string, so there is at most one match, the longest prefix made of
    digits and hyphens, and it must not be empty. *)
Definition sub_leading_digits_hyphens (repl s : str) : str :=
  let matched := Py.takewhile digit_or_hyphen s in
  match matched with
  | [] => s
  | _ :: _ => repl ++ skipn (length matched) s
  end.

End Re.

(** ** [sanitize_for_myst_url] *)

Definition sanitize_for_myst_url (path : str) : str :=
  (* Convert to lowercase *)
  let slug := Py.lower path in
  (* Replace spaces and underscores with hyphens *)
  let slug := Py.replace (lit "_") (lit "-") (Py.replace (lit " ") (lit "-") slug) in
  (* Collapse multiple consecutive hyphens *)
  let slug := Re.sub_hyphen_runs (lit "-") slug in
  (* Remove leading numbers and hyphens *)
  let slug :=
    Py.join (lit "/")
      (map (Re.sub_leading_digits_hyphens (lit "")) (Py.split slash slug)) in
  (* Strip leading/trailing hyphens from each path component *)
  let parts := Py.split slash slug in
  let parts := map (Py.strip Re.is_hyphen) parts in
  let slug := Py.join (lit "/") parts in
  slug.

(** ** The six steps of the specification

    The reference algorithm, written from the prose of the specification
    and not from the code: each step is a function of its own. *)

Module Spec.

(** 1. Lowercase the entire input. *)
Definition step1_lowercase (s : str) : str := map Py.lower_char s.

(** 2. Replace every space character and every underscore character with a
    hyphen. *)
Definition step2_hyphenate (s : str) : str :=
  map (fun c => if Ascii.eqb c space || Ascii.eqb c underscore then hyphen else c) s.

(** 3. Collapse any run of two or more consecutive hyphens into a single
    hyphen: a hyphen that is followed by a hyphen is dropped. *)
Fixpoint step3_collapse (s : str) : str :=
  match s with
  | [] => []
  | c :: s' =>
      match s' with
      | d :: _ =>
          if Re.is_hyphen c && Re.is_hyphen d then step3_collapse s'
          else c :: step3_collapse s'
      | [] => [c]
      end
  end.

(** 4. Strip any leading run of digits and/or hyphens of a component. *)
Definition step4_strip_ordinal (component : str) : str :=
  Py.dropwhile Re.digit_or_hyphen component.

(** 5. Strip the leading and the trailing hyphens of a component. *)
Definition step5_strip_hyphens (component : str) : str :=
  rev (Py.dropwhile Re.is_hyphen (rev (Py.dropwhile Re.is_hyphen component))).

(** 6. Rejoin the components with a slash. *)
Definition step6_rejoin (components : list str) : str :=
  Py.join [slash] components.

Definition sanitize (path : str) : str :=
  let s := step3_collapse (step2_hyphenate (step1_lowercase path)) in
  let components := Py.split slash s in
  step6_rejoin (map (fun c => step5_strip_hyphens (step4_strip_ordinal c)) components).

End Spec.

(** ** Exceptions and the two monads *)

Inductive exn : Type :=
| FileNotFoundError (msg : str)
| KeyError (msg : str)
| TypeError
| AttributeError
| OtherError.

Inductive result (A : Type) : Type :=
| Ok (a : A)
| Raise (e : exn).
Arguments Ok {A} a.
Arguments Raise {A} e.

Class Monad (M : Type -> Type) : Type := {
  ret : forall A, A -> M A;
  bind : forall A B, M A -> (A -> M B) -> M B
}.
Arguments ret {M _ A} _.
Arguments bind {M _ A B} _ _.

Declare Scope monad_scope.
Delimit Scope monad_scope with monad.
Notation "x <- c1 ;; c2" := (bind c1 (fun x => c2))
  (at level 61, c1 at next level, right associativity) : monad_scope.
Notation "c1 ;; c2" := (bind c1 (fun _ => c2))
  (at level 61, right associativity) : monad_scope.
Open Scope monad_scope.

#[export] Instance result_monad : Monad result := {
  ret := fun A a => Ok a;
  bind := fun A B c k => match c with Ok a => k a | Raise e => Raise e end
}.

(** The body of a [for] loop run on each element in turn, threading the
    variables the loop updates. *)
Fixpoint for_each {M : Type -> Type} {MM : Monad M} {A S : Type}
    (l : list A) (vars : S) (body : S -> A -> M S) : M S :=
  match l with
  | [] => ret vars
  | x :: l' => vars' <- body vars x ;; for_each l' vars' body
  end.

(** ** Values loaded by [yaml.safe_load]

    The loader's results built from [None], booleans, integers, strings,
    lists and dicts.  A dict keeps its entries in insertion order, and its
    keys are distinct in Python; a lookup takes the first entry of a key. *)

Inductive yaml : Type :=
| YNone
| YBool (b : bool)
| YInt (n : Z)
| YStr (s : str)
| YList (items : list yaml)
| YDict (entries : list (yaml * yaml)).

Fixpoint str_eqb (a b : str) : bool :=
  match a, b with
  | [], [] => true
  | x :: a', y :: b' => Ascii.eqb x y && str_eqb a' b'
  | _, _ => false
  end.

Module Dyn.

(** [v == s] for a string [s]. *)
Definition eq_str (v : yaml) (s : str) : bool :=
  match v with
  | YStr t => str_eqb t s
  | _ => false
  end.

(** [sub in s] on strings. *)
Fixpoint is_substring (sub s : str) : bool :=
  match s with
  | [] => Py.startswith sub []
  | _ :: s' => Py.startswith sub s || is_substring sub s'
  end.

(** [item in container] for a string [item]. *)
Definition contains (item : str) (container : yaml) : result bool :=
  match container with
  | YDict entries => Ok (existsb (fun kv => eq_str (fst kv) item) entries)
  | YList items => Ok (existsb (fun v => eq_str v item) items)
  | YStr s => Ok (is_substring item s)
  | YNone | YBool _ | YInt _ => Raise TypeError
  end.

(** [container[key]] for a string [key]. *)
Definition getitem (container : yaml) (key : str) : result yaml :=
  match container with
  | YDict entries =>
      match find (fun kv => eq_str (fst kv) key) entries with
      | Some kv => Ok (snd kv)
      | None => Raise (KeyError key)
      end
  | YList _ | YStr _ | YNone | YBool _ | YInt _ => Raise TypeError
  end.

(** The elements that [for item in v] goes through. *)
Definition iter (v : yaml) : result (list yaml) :=
  match v with
  | YList items => Ok items
  | YDict entries => Ok (map fst entries)
  | YStr s => Ok (map (fun c => YStr [c]) s)
  | YNone | YBool _ | YInt _ => Raise TypeError
  end.

(** [v.replace(old, new)]: a method of [str] only. *)
Definition replace (v : yaml) (old new : str) : result str :=
  match v with
  | YStr s => Ok (Py.replace old new s)
  | _ => Raise AttributeError
  end.

End Dyn.

(** Nesting depth of a value: the calls of [flatten_toc] never nest deeper. *)
Fixpoint depth (v : yaml) : nat :=
  match v with
  | YList items => S (fold_right (fun x m => Nat.max (depth x) m) 0 items)
  | YDict entries =>
      S (fold_right (fun kv m => Nat.max (Nat.max (depth (fst kv)) (depth (snd kv))) m)
           0 entries)
  | _ => 0
  end.

(** ** [flatten_toc] *)

(** The body of the loop over the items of [toc]; [flatten_toc] stands for
    the recursive call. *)
Definition flatten_item (flatten_toc : yaml -> result (list yaml))
    (files : list yaml) (item : yaml) : result (list yaml) :=
  has_file <- Dyn.contains (lit "file") item ;;
  files <- (if has_file : bool
            then file <- Dyn.getitem item (lit "file") ;; ret (files ++ [file])
            else ret files) ;;
  has_children <- Dyn.contains (lit "children") item ;;
  if has_children : bool
  then children <- Dyn.getitem item (lit "children") ;;
       sub <- flatten_toc children ;;
       ret (files ++ sub)
  else ret files.

(** The function with its recursion bounded by [calls] nested calls. *)
Fixpoint flatten_toc_within (calls : nat) (toc : yaml) : result (list yaml) :=
  match calls with
  | O => Raise OtherError
  | S calls' =>
      let files := [] in
      items <- Dyn.iter toc ;;
      for_each items files (flatten_item (flatten_toc_within calls'))
  end.

(** A call on [toc] nests at most [depth toc] further calls, so this bound
    is never reached (see [flatten_toc_within_enough]). *)
Definition flatten_toc (toc : yaml) : result (list yaml) :=
  flatten_toc_within (S (depth toc)) toc.

(** ** Effects: paths, events and the monad of the emitter *)

(** A [pathlib.Path], kept as the expression that builds it. *)
Inductive path : Type :=
| Path (text : str)
| Div (p : path) (child : str)     (* [p / child] *)
| Parent (p : path).               (* [p.parent] *)

Inductive stream : Type := Stdout | Stderr.

Inductive event : Type :=
| Mkdir (dir : path)                   (* [dir.mkdir(parents=True, exist_ok=True)] *)
| WriteText (file : path) (text : str) (* [file.write_text(text)] *)
| Echo (to : stream) (line : str).     (* [click.echo(line, err=...)] *)

(** A computation yields the events it performed, in order, and its result
    or the exception that stopped it. *)
Definition io (A : Type) : Type := (list event * result A)%type.

#[export] Instance io_monad : Monad io := {
  ret := fun A a => ([], Ok a);
  bind := fun A B c k =>
    match c with
    | (t, Ok a) => let (t', r) := k a in (t ++ t', r)
    | (t, Raise e) => (t, Raise e)
    end
}.

Definition lift {A : Type} (r : result A) : io A := ([], r).
Definition emit (e : event) : io unit := ([e], Ok tt).

(** The files the loader can read.  [None]: the path does not exist;
    [Some (Some v)]: it exists and [yaml.safe_load] on the opened file gives
    [v]; [Some None]: it exists and opening or parsing it raises (it is a
    directory, it is not YAML, ...). *)
Definition filesystem : Type := str -> option (option yaml).

Definition path_exists (fs : filesystem) (p : str) : bool :=
  match fs p with Some _ => true | None => false end.

(** [with open(p) as f: yaml.safe_load(f)], called on a path that exists. *)
Definition safe_load (fs : filesystem) (p : str) : result yaml :=
  match fs p with
  | Some (Some v) => Ok v
  | Some None | None => Raise OtherError
  end.

(** ** [load_myst_toc] *)

Definition load_myst_toc (fs : filesystem) (myst_config_path : str)
  : result (list yaml) :=
  if negb (path_exists fs myst_config_path)
  then Raise (FileNotFoundError (lit "MyST config file not found: " ++ myst_config_path))
  else
    config <- safe_load fs myst_config_path ;;
    has_project <- Dyn.contains (lit "project") config ;;
    lacks <- (if negb has_project then ret true
              else project <- Dyn.getitem config (lit "project") ;;
                   has_toc <- Dyn.contains (lit "toc") project ;;
                   ret (negb has_toc)) ;;
    if lacks : bool
    then Raise (KeyError (lit "MyST config must have 'project.toc' structure"))
    else
      project <- Dyn.getitem config (lit "project") ;;
      toc <- Dyn.getitem project (lit "toc") ;;
      flatten_toc toc.

(** ** [create_redirect_html] *)

Definition dq : str := [chr 34].
Definition nl : str := [chr 10].

(** The f-string of the redirect page. *)
Definition redirect_html (new_url : str) : str :=
  lit "<!DOCTYPE html>" ++ nl ++
  lit "<html>" ++ nl ++
  lit "<head>" ++ nl ++
  lit "    <meta http-equiv=" ++ dq ++ lit "refresh" ++ dq ++
    lit " content=" ++ dq ++ lit "0; url=" ++ new_url ++ dq ++ lit ">" ++ nl ++
  lit "    <meta charset=" ++ dq ++ lit "utf-8" ++ dq ++ lit ">" ++ nl ++
  lit "    <title>Redirecting...</title>" ++ nl ++
  lit "</head>" ++ nl ++
  lit "<body>" ++ nl ++
  lit "    <p>This page has moved. Redirecting to <a href=" ++ dq ++ new_url ++ dq ++
    lit ">" ++ new_url ++ lit "</a></p>" ++ nl ++
  lit "</body>" ++ nl ++
  lit "</html>" ++ nl.

Definition create_redirect_html (old_slug new_url : str) (output_root : path)
  : io path :=
  (* Ensure the output directory exists *)
  let output_file := Div output_root old_slug in
  emit (Mkdir (Parent output_file)) ;;
  (* Write a simple HTML redirect *)
  let html := redirect_html new_url in
  emit (WriteText output_file html) ;;
  ret output_file.

(** ** [generate_redirects] *)

Definition generate_redirects (fs : filesystem)
    (base_url : str) (output_root : path) (myst_config_path : str) : io nat :=
  (* Ensure base_url ends with / *)
  let base_url :=
    if negb (Py.endswith (lit "/") base_url) then base_url ++ lit "/" else base_url in
  (* Load file paths from MyST TOC *)
  file_paths <- lift (load_myst_toc fs myst_config_path) ;;
  match file_paths with
  | [] =>
      emit (Echo Stderr (lit "No files found in TOC")) ;;
      ret 0
  | index_file_path :: _ =>
      (* Auto-detect index file: the first file in the TOC is the landing page *)
      index_slug <- lift (without_md <- Dyn.replace index_file_path (lit ".md") (lit "") ;;
                          ret (sanitize_for_myst_url
                                 (Py.replace (lit ".ipynb") (lit "") without_md))) ;;
      (* Generate redirects for each file *)
      let count := 0 in
      for_each file_paths count (fun count file_path =>
        (* Old URL: path/to/file.md -> path/to/file.html *)
        old_slug <- lift (html_for_md <- Dyn.replace file_path (lit ".md") (lit ".html") ;;
                          ret (Py.replace (lit ".ipynb") (lit ".html") html_for_md)) ;;
        (* New URL: path/to/file.md -> /path/to/file/ *)
        path_without_ext <-
          lift (without_md <- Dyn.replace file_path (lit ".md") (lit "") ;;
                ret (Py.replace (lit ".ipynb") (lit "") without_md)) ;;
        let new_slug := sanitize_for_myst_url path_without_ext in
        (* The first file in the TOC becomes the root index *)
        let new_url :=
          if str_eqb new_slug index_slug then base_url
          else base_url ++ new_slug ++ lit "/" in
        create_redirect_html old_slug new_url output_root ;;
        emit (Echo Stdout (old_slug ++ lit " -> " ++ new_url)) ;;
        ret (count + 1))
  end.

(** ** Well-formed tables of contents

    The shape the type hints and the documentation give a TOC: a list of
    entries, each with an optional [file] and optional [children]. *)

Inductive toc_entry : Type :=
| Entry (file : option str) (children : option (list toc_entry)).

Definition optional {A : Type} (o : option A) : list A :=
  match o with Some a => [a] | None => [] end.

(** The value [yaml.safe_load] gives for an entry. *)
Fixpoint entry_to_yaml (e : toc_entry) : yaml :=
  match e with
  | Entry file children =>
      YDict (optional (option_map (fun f => (YStr (lit "file"), YStr f)) file) ++
             optional (option_map (fun cs => (YStr (lit "children"),
                                               YList (map entry_to_yaml cs)))
                                  children))
  end.

Definition toc_to_yaml (toc : list toc_entry) : yaml :=
  YList (map entry_to_yaml toc).

(** Pre-order of one entry: its own file, then its children from first to
    last, each with all its descendants. *)
Fixpoint preorder (e : toc_entry) : list str :=
  match e with
  | Entry file children =>
      optional file ++
      match children with
      | Some cs => flat_map preorder cs
      | None => []
      end
  end.

Definition preorder_toc (toc : list toc_entry) : list str :=
  flat_map preorder toc.

(** Induction on an entry with the property known of all its children. *)
Fixpoint toc_entry_induction (P : toc_entry -> Prop)
    (leaf : forall file, P (Entry file None))
    (node : forall file children, Forall P children -> P (Entry file (Some children)))
    (e : toc_entry) : P e :=
  match e with
  | Entry file None => leaf file
  | Entry file (Some children) =>
      node file children
        ((fix all (l : list toc_entry) : Forall P l :=
            match l with
            | [] => Forall_nil P
            | x :: l' => Forall_cons x (toc_entry_induction P leaf node x) (all l')
            end) children)
  end.

(** The configuration document whose [project.toc] is the given TOC. *)
Definition config_of_toc (toc : yaml) : yaml :=
  YDict [(YStr (lit "project"), YDict [(YStr (lit "toc"), toc)])].

(** A file system with one file. *)
Definition single_file (p : str) (document : yaml) : filesystem :=
  fun q => if str_eqb q p then Some (Some document) else None.

(** The required shape of a configuration document: a mapping with a
    [project] section that is a mapping with a [toc] field. *)
Definition has_project_toc (config : yaml) : bool :=
  match config with
  | YDict entries =>
      match find (fun kv => Dyn.eq_str (fst kv) (lit "project")) entries with
      | Some (_, YDict project) =>
          existsb (fun kv => Dyn.eq_str (fst kv) (lit "toc")) project
      | _ => false
      end
  | _ => false
  end.

(** The exceptions of the dynamic operations on loaded values. *)
Definition dynamic_error (e : exn) : Prop :=
  e = TypeError \/ exists key, e = KeyError key.

(** ** What the emitter is expected to do *)

(** The files written by a run, in order, each with its content. *)
Fixpoint written (trace : list event) : list (path * str) :=
  match trace with
  | [] => []
  | WriteText file text :: trace' => (file, text) :: written trace'
  | _ :: trace' => written trace'
  end.

(** The lines echoed to a stream, in order. *)
Fixpoint echoed (to : stream) (trace : list event) : list str :=
  match trace with
  | [] => []
  | Echo Stdout line :: trace' =>
      match to with Stdout => line :: echoed to trace' | Stderr => echoed to trace' end
  | Echo Stderr line :: trace' =>
      match to with Stderr => line :: echoed to trace' | Stdout => echoed to trace' end
  | _ :: trace' => echoed to trace'
  end.

Definition normalized (base_url : str) : str :=
  if Py.endswith (lit "/") base_url then base_url else base_url ++ lit "/".

Definition old_url (file_path : str) : str :=
  Py.replace (lit ".ipynb") (lit ".html") (Py.replace (lit ".md") (lit ".html") file_path).

Definition extensionless (file_path : str) : str :=
  Py.replace (lit ".ipynb") (lit "") (Py.replace (lit ".md") (lit "") file_path).

Definition slug_of (file_path : str) : str :=
  sanitize_for_myst_url (extensionless file_path).

(** The new URL of a file path, for a normalized base URL and the slug of
    the index entry. *)
Definition new_url_for (base index_slug file_path : str) : str :=
  if str_eqb (slug_of file_path) index_slug then base
  else base ++ slug_of file_path ++ lit "/".

(** The events of one iteration of the loop of [generate_redirects]. *)
Definition redirect_events (output_root : path) (base index_slug file_path : str)
  : list event :=
  [Mkdir (Parent (Div output_root (old_url file_path)));
   WriteText (Div output_root (old_url file_path))
     (redirect_html (new_url_for base index_slug file_path));
   Echo Stdout (old_url file_path ++ lit " -> " ++ new_url_for base index_slug file_path)].

(** [s.count(sub)] for a non-empty [sub]: occurrences from the left that do
    not overlap. *)
Fixpoint count_from (sub : str) (skip : nat) (s : str) : nat :=
  match s with
  | [] => 0
  | _ :: s' =>
      match skip with
      | S k => count_from sub k s'
      | O =>
          if Py.startswith sub s then S (count_from sub (length sub - 1) s')
          else count_from sub 0 s'
      end
  end.

Definition count (sub s : str) : nat := count_from sub 0 s.

(** The redirect page cut at the places where the URL goes. *)
Module Template.

Definition before_refresh_target : str :=
  lit "<!DOCTYPE html>" ++ nl ++
  lit "<html>" ++ nl ++
  lit "<head>" ++ nl ++
  lit "    <meta http-equiv=" ++ dq ++ lit "refresh" ++ dq ++
    lit " content=" ++ dq ++ lit "0; url=".

Definition before_link_target : str :=
  dq ++ lit ">" ++ nl ++
  lit "    <meta charset=" ++ dq ++ lit "utf-8" ++ dq ++ lit ">" ++ nl ++
  lit "    <title>Redirecting...</title>" ++ nl ++
  lit "</head>" ++ nl ++
  lit "<body>" ++ nl ++
  lit "    <p>This page has moved. Redirecting to <a href=" ++ dq.

Definition before_link_text : str := dq ++ lit ">".

Definition ending : str :=
  lit "</a></p>" ++ nl ++
  lit "</body>" ++ nl ++
  lit "</html>" ++ nl.

End Template.

(** The scenario of the specification: a table of contents with two
    entries, in [myst.yml]. *)
Module Scenario.

Definition file_paths : list str := [lit "overview.md"; lit "content/01-intro.md"].

Definition toc : list toc_entry := map (fun f => Entry (Some f) None) file_paths.

Definition fs : filesystem :=
  single_file (lit "myst.yml") (config_of_toc (toc_to_yaml toc)).

Definition base_url : str := lit "https://example.com/".

Definition output_root : path := Path (lit "_build/html").

End Scenario.

(** ** Predicates on slugs *)

(** No character of [part] is the separator. *)
Definition no_sep (sep : ascii) (part : str) : Prop :=
  forallb (fun c => negb (Ascii.eqb c sep)) part = true.

(** Two hyphens in a row somewhere in [s]. *)
Fixpoint double_hyphen (s : str) : bool :=
  match s with
  | [] => false
  | c :: s' =>
      (Re.is_hyphen c && match s' with d :: _ => Re.is_hyphen d | [] => false end)
      || double_hyphen s'
  end.

(** A character a slug can hold: not upper case, not a space, not an
    underscore. *)
Definition slug_char (c : ascii) : bool :=
  negb (Py.is_upper c) && negb (Ascii.eqb c space) && negb (Ascii.eqb c underscore).

(** A component in canonical form: empty, or starting with a character that
    is neither a digit nor a hyphen and not ending with a hyphen. *)
Definition canonical (component : str) : bool :=
  match component with
  | [] => true
  | c :: _ => negb (Re.digit_or_hyphen c) && negb (Re.is_hyphen (last component c))
  end.

(** The sanitized form of a string. *)
Definition sanitized (s : str) : bool :=
  forallb slug_char s && negb (double_hyphen s) && forallb canonical (Py.split slash s).

(** The number of slash-separated components of a path. *)
Definition component_count (s : str) : nat := length (Py.split slash s).

(** ** [discover_myst_config] and [main] *)

(** [repr(s)] of a string of code points below 256: the quotes are double
    when the string holds a single quote and no double quote, and single
    otherwise; the quote character and the backslash are escaped, and so are
    the characters that are not printable. *)
Module Repr.

Definition backslash : ascii := chr 92.
Definition single_quote : ascii := chr 39.
Definition double_quote : ascii := chr 34.

Definition printable (c : ascii) : bool :=
  let n := nat_of_ascii c in
  ((32 <=? n) && (n <=? 126)) || ((161 <=? n) && negb (n =? 173)).

Definition hex_digit (n : nat) : ascii := nth n (lit "0123456789abcdef") "0"%char.

Definition escape (quote c : ascii) : str :=
  if Ascii.eqb c quote || Ascii.eqb c backslash then [backslash; c]
  else if Ascii.eqb c (chr 9) then lit "\t"
  else if Ascii.eqb c (chr 10) then lit "\n"
  else if Ascii.eqb c (chr 13) then lit "\r"
  else if printable c then [c]
  else lit "\x" ++ [hex_digit (nat_of_ascii c / 16); hex_digit (nat_of_ascii c mod 16)].

Definition has (c : ascii) (s : str) : bool := existsb (Ascii.eqb c) s.

Definition repr (s : str) : str :=
  let quote :=
    if has single_quote s && negb (has double_quote s) then double_quote
    else single_quote in
  [quote] ++ flat_map (escape quote) s ++ [quote].

End Repr.

(** [str(n)] of a count. *)
Definition decimal (n : nat) : str := lit (NilEmpty.string_of_uint (Nat.to_uint n)).

(** How a run of the command ends: [main] returns, or [sys.exit(code)]. *)
Inductive outcome : Type :=
| Returned
| Exit (code : nat).

(** [try: body except ...: handler]; a handler that does not catch an
    exception raises it again. *)
Definition try_except {A : Type} (body : io A) (handler : exn -> io A) : io A :=
  match body with
  | (t, Ok a) => (t, Ok a)
  | (t, Raise e) => let (t', r) := handler e in (t ++ t', r)
  end.

(** [Path('./myst.yml')] and [Path('./docs/myst.yml')], as [str] gives them. *)
Definition common_locations : list str := [lit "myst.yml"; lit "docs/myst.yml"].

Definition discover_myst_config (fs : filesystem) : result str :=
  match find (path_exists fs) common_locations with
  | Some location => Ok location
  | None =>
      Raise (FileNotFoundError
               (lit "Could not find myst.yml in common locations (./myst.yml, ./docs/myst.yml). " ++
                lit "Use --myst-config to specify the path explicitly."))
  end.

Section Main.

(** The text [str(e)] of an exception raised by the interpreter itself, and
    the text [str(p)] of a path: both are left to Python. *)
Variable message_of : exn -> str.
Variable path_text : path -> str.

(** [str(e)]: the message of a [FileNotFoundError] made from one string, the
    [repr] of the argument of a [KeyError]. *)
Definition str_of_exn (e : exn) : str :=
  match e with
  | FileNotFoundError msg => msg
  | KeyError msg => Repr.repr msg
  | TypeError | AttributeError | OtherError => message_of e
  end.

Definition main (fs : filesystem) (base_url : str) (output_dir : path)
    (myst_config : option str) : io outcome :=
  (* Auto-discover config if not specified *)
  found <- match myst_config with
           | None =>
               try_except
                 (myst_config <- lift (discover_myst_config fs) ;;
                  emit (Echo Stdout (lit "Using config: " ++ myst_config)) ;;
                  ret (inl myst_config))
                 (fun e =>
                    match e with
                    | FileNotFoundError _ =>
                        emit (Echo Stderr (lit "Error: " ++ str_of_exn e)) ;;
                        ret (inr (Exit 1))
                    | _ => lift (Raise e)
                    end)
           | Some myst_config => ret (inl myst_config)
           end ;;
  match found with
  | inr exit => ret exit
  | inl myst_config =>
      try_except
        (count <- generate_redirects fs base_url output_dir myst_config ;;
         emit (Echo Stdout (nl ++ lit "Generated " ++ decimal count ++
                            lit " redirect files in " ++ path_text output_dir)) ;;
         ret Returned)
        (fun e =>
           match e with
           | FileNotFoundError _ =>
               emit (Echo Stderr (lit "Error: " ++ str_of_exn e)) ;;
               ret (Exit 1)
           | KeyError _ =>
               emit (Echo Stderr (lit "Error: " ++ str_of_exn e)) ;;
               emit (Echo Stderr (lit "Make sure your myst.yml has a 'project.toc' structure")) ;;
               ret (Exit 1)
           | _ =>
               emit (Echo Stderr (lit "Unexpected error: " ++ str_of_exn e)) ;;
               ret (Exit 1)
           end)
  end.

End Main.

(** The path [main] hands to [generate_redirects], when there is one. *)
Definition resolved_config (fs : filesystem) (myst_config : option str) : result str :=
  match myst_config with
  | Some p => Ok p
  | None => discover_myst_config fs
  end.

(** The message of the [KeyError] of [load_myst_toc]. *)
Definition structure_message : str :=
  lit "MyST config must have 'project.toc' structure".

(** ** More predicates *)

(** A character the sanitizer strips at the start of a component, once
    lowered and hyphenated: a digit, a hyphen, a space or an underscore. *)
Definition ordinal_char (c : ascii) : bool :=
  Re.is_digit c || Re.is_hyphen c || Ascii.eqb c space || Ascii.eqb c underscore.

Definition dot : ascii := "."%char.

(** [Dyn.getitem] when the key may be missing. *)
Definition lookup (key : str) (entries : list (yaml * yaml)) : option yaml :=
  option_map snd (find (fun kv => Dyn.eq_str (fst kv) key) entries).

Definition is_str (v : yaml) : bool :=
  match v with YStr _ => true | _ => false end.

(** A configuration document that is a mapping whose [project], when there
    is one, is a mapping. *)
Definition mapping_config (config : yaml) : bool :=
  match config with
  | YDict entries =>
      match lookup (lit "project") entries with
      | None | Some (YDict _) => true
      | Some _ => false
      end
  | _ => false
  end.

(** ** The emitter on a system that can refuse an operation

    [create_redirect_html], [generate_redirects] and [main] once more, with
    every operation on the outside (making a directory, writing a file,
    echoing a line) put to the system, which performs it or raises.  The
    answer may depend on what has been done so far: after [a.html] has been
    written as a file, making the directory [a.html] is refused.  On a
    system that refuses nothing these are the functions given above. *)

Module Fallible.

(** The answer of the system to an operation, given the operations done so
    far: [None] when it performs it, [Some e] when it raises [e]. *)
Definition system : Type := list event -> event -> option exn.

(** A system that refuses nothing. *)
Definition willing : system := fun _ _ => None.

(** A computation takes the operations done so far and gives them back
    with its own, and its result or the exception that stopped it. *)
Definition run (A : Type) : Type := list event -> list event * result A.

#[global] Instance run_monad : Monad run := {
  ret := fun A a => fun done => (done, Ok a);
  bind := fun A B c k => fun done =>
    match c done with
    | (done', Ok a) => k a done'
    | (done', Raise e) => (done', Raise e)
    end
}.

Definition lift {A : Type} (r : result A) : run A := fun done => (done, r).

Definition perform (sys : system) (e : event) : run unit :=
  fun done =>
    match sys done e with
    | None => (done ++ [e], Ok tt)
    | Some x => (done, Raise x)
    end.

Definition try_except {A : Type} (body : run A) (handler : exn -> run A) : run A :=
  fun done =>
    match body done with
    | (done', Ok a) => (done', Ok a)
    | (done', Raise e) => handler e done'
    end.

Section System.

Variable sys : system.

Definition create_redirect_html (old_slug new_url : str) (output_root : path)
  : run path :=
  (* Ensure the output directory exists *)
  let output_file := Div output_root old_slug in
  perform sys (Mkdir (Parent output_file)) ;;
  (* Write a simple HTML redirect *)
  let html := redirect_html new_url in
  perform sys (WriteText output_file html) ;;
  ret output_file.

Definition generate_redirects (fs : filesystem)
    (base_url : str) (output_root : path) (myst_config_path : str) : run nat :=
  (* Ensure base_url ends with / *)
  let base_url :=
    if negb (Py.endswith (lit "/") base_url) then base_url ++ lit "/" else base_url in
  (* Load file paths from MyST TOC *)
  file_paths <- lift (load_myst_toc fs myst_config_path) ;;
  match file_paths with
  | [] =>
      perform sys (Echo Stderr (lit "No files found in TOC")) ;;
      ret 0
  | index_file_path :: _ =>
      (* Auto-detect index file: the first file in the TOC is the landing page *)
      index_slug <- lift (without_md <- Dyn.replace index_file_path (lit ".md") (lit "") ;;
                          ret (sanitize_for_myst_url
                                 (Py.replace (lit ".ipynb") (lit "") without_md))) ;;
      (* Generate redirects for each file *)
      let count := 0 in
      for_each file_paths count (fun count file_path =>
        (* Old URL: path/to/file.md -> path/to/file.html *)
        old_slug <- lift (html_for_md <- Dyn.replace file_path (lit ".md") (lit ".html") ;;
                          ret (Py.replace (lit ".ipynb") (lit ".html") html_for_md)) ;;
        (* New URL: path/to/file.md -> /path/to/file/ *)
        path_without_ext <-
          lift (without_md <- Dyn.replace file_path (lit ".md") (lit "") ;;
                ret (Py.replace (lit ".ipynb") (lit "") without_md)) ;;
        let new_slug := sanitize_for_myst_url path_without_ext in
        (* The first file in the TOC becomes the root index *)
        let new_url :=
          if str_eqb new_slug index_slug then base_url
          else base_url ++ new_slug ++ lit "/" in
        create_redirect_html old_slug new_url output_root ;;
        perform sys (Echo Stdout (old_slug ++ lit " -> " ++ new_url)) ;;
        ret (count + 1))
  end.

Variable message_of : exn -> str.
Variable path_text : path -> str.

Definition main (fs : filesystem) (base_url : str) (output_dir : path)
    (myst_config : option str) : run outcome :=
  (* Auto-discover config if not specified *)
  found <- match myst_config with
           | None =>
               try_except
                 (myst_config <- lift (discover_myst_config fs) ;;
                  perform sys (Echo Stdout (lit "Using config: " ++ myst_config)) ;;
                  ret (inl myst_config))
                 (fun e =>
                    match e with
                    | FileNotFoundError _ =>
                        perform sys (Echo Stderr (lit "Error: " ++ str_of_exn message_of e)) ;;
                        ret (inr (Exit 1))
                    | _ => lift (Raise e)
                    end)
           | Some myst_config => ret (inl myst_config)
           end ;;
  match found with
  | inr exit => ret exit
  | inl myst_config =>
      try_except
        (count <- generate_redirects fs base_url output_dir myst_config ;;
         perform sys (Echo Stdout (nl ++ lit "Generated " ++ decimal count ++
                                   lit " redirect files in " ++ path_text output_dir)) ;;
         ret Returned)
        (fun e =>
           match e with
           | FileNotFoundError _ =>
               perform sys (Echo Stderr (lit "Error: " ++ str_of_exn message_of e)) ;;
               ret (Exit 1)
           | KeyError _ =>
               perform sys (Echo Stderr (lit "Error: " ++ str_of_exn message_of e)) ;;
               perform sys (Echo Stderr (lit "Make sure your myst.yml has a 'project.toc' structure")) ;;
               ret (Exit 1)
           | _ =>
               perform sys (Echo Stderr (lit "Unexpected error: " ++ str_of_exn message_of e)) ;;
               ret (Exit 1)
           end)
  end.

End System.

(** The operations of a list put to the system one after the other, until
    one is refused: what has been done then, and the exception if any. *)
Fixpoint attempt (sys : system) (done todo : list event) : list event * option exn :=
  match todo with
  | [] => (done, None)
  | e :: todo' =>
      match sys done e with
      | None => attempt sys (done ++ [e]) todo'
      | Some x => (done, Some x)
      end
  end.

(** A system on which a file is not a directory: it performs everything
    but the making of the parent directory of [child] when a file has been
    written at a path that [child] goes through. *)
Definition file_is_no_directory : system :=
  fun done e =>
    match e with
    | Mkdir (Parent (Div _ child)) =>
        if existsb (fun file_text =>
                      match fst file_text with
                      | Div _ file => Py.startswith (file ++ [slash]) child
                      | _ => false
                      end) (written done)
        then Some OtherError else None
    | _ => None
    end.

(** A computation on a system and a computation of the first kind do the
    same: the first adds the events of the second to what was done, and
    ends as it does. *)
Definition agrees {A : Type} (c' : run A) (c : io A) : Prop :=
  forall done, c' done = (done ++ fst c, snd c).

End Fallible.

(** * Properties *)

(** ** Characters *)

(** Case analysis over the 256 characters. *)
Ltac each_char c := destruct c as [[] [] [] [] [] [] [] []].

Lemma str_eqb_eq (a b : str) : str_eqb a b = true <-> a = b.
Proof.
  revert b; induction a as [|x a IH]; intros [|y b]; simpl; split;
    try discriminate; try reflexivity; intro H.
  - apply andb_true_iff in H as [Hxy Hab].
    apply Ascii.eqb_eq in Hxy. apply IH in Hab. congruence.
  - injection H as -> ->. apply andb_true_iff; split.
    + apply Ascii.eqb_refl.
    + now apply IH.
Qed.

Lemma str_eqb_refl (a : str) : str_eqb a a = true.
Proof. now apply str_eqb_eq. Qed.

Lemma lower_char_fixed (c : ascii) :
  Py.lower_char (Py.lower_char c) = Py.lower_char c.
Proof. each_char c; reflexivity. Qed.

Lemma lower_char_not_upper (c : ascii) : Py.is_upper (Py.lower_char c) = false.
Proof. each_char c; reflexivity. Qed.

Lemma lower_char_slash (c : ascii) :
  Ascii.eqb (Py.lower_char c) slash = Ascii.eqb c slash.
Proof. each_char c; reflexivity. Qed.

Lemma not_upper_lower_char (c : ascii) :
  Py.is_upper c = false -> Py.lower_char c = c.
Proof. unfold Py.lower_char. now intros ->. Qed.

Lemma is_hyphen_true (c : ascii) : Re.is_hyphen c = true <-> c = hyphen.
Proof. apply Ascii.eqb_eq. Qed.

Lemma is_hyphen_digit_or_hyphen (c : ascii) :
  Re.digit_or_hyphen c = false -> Re.is_hyphen c = false.
Proof. unfold Re.digit_or_hyphen. intro H. now apply orb_false_iff in H. Qed.

(** ** [replace] of one character by one character is a [map] *)

Lemma replace_char (a b : ascii) (s : str) :
  Py.replace [a] [b] s = map (fun c => if Ascii.eqb c a then b else c) s.
Proof.
  unfold Py.replace. induction s as [|c s IH]; simpl; [reflexivity|].
  rewrite (Ascii.eqb_sym a c), andb_true_r.
  destruct (Ascii.eqb c a); simpl; now rewrite IH.
Qed.

(** ** [split] and [join] *)

Lemma split_not_nil (sep : ascii) (s : str) : Py.split sep s <> [].
Proof.
  destruct s as [|c s]; simpl; [discriminate|].
  destruct (Ascii.eqb c sep); [discriminate|].
  destruct (Py.split sep s); discriminate.
Qed.

Lemma split_cons_other (sep c : ascii) (s : str) :
  Ascii.eqb c sep = false ->
  exists part parts,
    Py.split sep s = part :: parts /\ Py.split sep (c :: s) = (c :: part) :: parts.
Proof.
  intro Hc. simpl. rewrite Hc.
  destruct (Py.split sep s) as [|part parts] eqn:E.
  - now apply split_not_nil in E.
  - now exists part, parts.
Qed.

Lemma join_split (sep : ascii) (s : str) : Py.join [sep] (Py.split sep s) = s.
Proof.
  induction s as [|c s IH]; [reflexivity|].
  destruct (Ascii.eqb c sep) eqn:Hc.
  - simpl. rewrite Hc. apply Ascii.eqb_eq in Hc. subst c.
    destruct (Py.split sep s) as [|part parts] eqn:E.
    + now apply split_not_nil in E.
    + simpl in *. now rewrite IH.
  - destruct (split_cons_other sep c s Hc) as (part & parts & E & E').
    rewrite E'. rewrite E in IH.
    destruct parts; simpl in *; now rewrite IH.
Qed.

Lemma split_no_sep (sep : ascii) (s : str) :
  Forall (no_sep sep) (Py.split sep s).
Proof.
  induction s as [|c s IH]; simpl.
  - repeat constructor.
  - destruct (Ascii.eqb c sep) eqn:Hc.
    + constructor; [reflexivity | exact IH].
    + destruct (Py.split sep s) as [|part parts]; [repeat constructor|].
      * unfold no_sep. simpl. now rewrite Hc.
      * inversion IH; subst. constructor; [|assumption].
        unfold no_sep in *. simpl. now rewrite Hc.
Qed.

Lemma split_part (sep : ascii) (part : str) :
  no_sep sep part -> Py.split sep part = [part].
Proof.
  unfold no_sep. induction part as [|c part IH]; simpl; [reflexivity|].
  intro H. apply andb_true_iff in H as [Hc H].
  apply negb_true_iff in Hc. rewrite Hc, (IH H). reflexivity.
Qed.

Lemma split_part_sep (sep : ascii) (part rest : str) :
  no_sep sep part ->
  Py.split sep (part ++ sep :: rest) = part :: Py.split sep rest.
Proof.
  unfold no_sep. induction part as [|c part IH]; simpl; intro H.
  - now rewrite Ascii.eqb_refl.
  - apply andb_true_iff in H as [Hc H].
    apply negb_true_iff in Hc. rewrite Hc, (IH H). reflexivity.
Qed.

Lemma split_join (sep : ascii) (parts : list str) :
  parts <> [] -> Forall (no_sep sep) parts ->
  Py.split sep (Py.join [sep] parts) = parts.
Proof.
  induction parts as [|part parts IH]; [congruence|].
  intros _ H. inversion H as [|? ? Hp Hps]; subst.
  destruct parts as [|part' parts].
  - simpl. now apply split_part.
  - change (Py.join [sep] (part :: part' :: parts))
      with (part ++ sep :: Py.join [sep] (part' :: parts)).
    rewrite split_part_sep by assumption.
    rewrite IH; [reflexivity | discriminate | assumption].
Qed.

Lemma length_split (sep : ascii) (s : str) :
  length (Py.split sep s) = S (length (filter (fun c => Ascii.eqb c sep) s)).
Proof.
  induction s as [|c s IH]; [reflexivity|].
  destruct (Ascii.eqb c sep) eqn:Hc.
  - simpl. rewrite Hc. simpl. now rewrite IH.
  - destruct (split_cons_other sep c s Hc) as (part & parts & E & E').
    rewrite E'. simpl. rewrite Hc. rewrite <- IH, E. reflexivity.
Qed.

(** ** The code's steps against the steps of the specification *)

Lemma lower_replace_is_step2 (s : str) :
  Py.replace (lit "_") (lit "-") (Py.replace (lit " ") (lit "-") (Py.lower s))
  = Spec.step2_hyphenate (Spec.step1_lowercase s).
Proof.
  change (lit "_") with [underscore]. change (lit " ") with [space].
  change (lit "-") with [hyphen].
  rewrite !replace_char. unfold Spec.step2_hyphenate, Spec.step1_lowercase, Py.lower.
  rewrite map_map. apply map_ext. intro c.
  destruct (Ascii.eqb c space); reflexivity.
Qed.

Lemma step3_cons_other (c : ascii) (s : str) :
  Re.is_hyphen c = false -> Spec.step3_collapse (c :: s) = c :: Spec.step3_collapse s.
Proof.
  intro Hc. destruct s as [|d s]; [reflexivity|].
  change (Spec.step3_collapse (c :: d :: s))
    with (if Re.is_hyphen c && Re.is_hyphen d then Spec.step3_collapse (d :: s)
          else c :: Spec.step3_collapse (d :: s)).
  now rewrite Hc.
Qed.

Lemma step3_before_other (c d : ascii) (s : str) :
  Re.is_hyphen d = false ->
  Spec.step3_collapse (c :: d :: s) = c :: d :: Spec.step3_collapse s.
Proof.
  intro Hd. rewrite <- (step3_cons_other d s Hd).
  change (Spec.step3_collapse (c :: d :: s))
    with (if Re.is_hyphen c && Re.is_hyphen d then Spec.step3_collapse (d :: s)
          else c :: Spec.step3_collapse (d :: s)).
  now rewrite Hd, andb_false_r.
Qed.

Lemma step3_two_hyphens (s : str) :
  Spec.step3_collapse (hyphen :: hyphen :: s) = Spec.step3_collapse (hyphen :: s).
Proof. reflexivity. Qed.

(** The scan that keeps the first hyphen of a run and the rule that drops
    every hyphen followed by a hyphen give the same string. *)
Lemma sub_hyphen_runs_from_step3 (s : str) :
  Re.sub_hyphen_runs_from [hyphen] false s = Spec.step3_collapse s /\
  hyphen :: Re.sub_hyphen_runs_from [hyphen] true s = Spec.step3_collapse (hyphen :: s).
Proof.
  induction s as [|c s [IHf IHt]]; [split; reflexivity|].
  destruct (Re.is_hyphen c) eqn:Hc.
  - assert (c = hyphen) by now apply is_hyphen_true. subst c. split.
    + simpl. exact IHt.
    + rewrite step3_two_hyphens. simpl. exact IHt.
  - split.
    + simpl Re.sub_hyphen_runs_from. rewrite Hc, IHf. now rewrite step3_cons_other.
    + simpl Re.sub_hyphen_runs_from. rewrite Hc, IHf.
      now rewrite step3_before_other.
Qed.

Lemma sub_hyphen_runs_is_step3 (s : str) :
  Re.sub_hyphen_runs (lit "-") s = Spec.step3_collapse s.
Proof. apply sub_hyphen_runs_from_step3. Qed.

Lemma skipn_takewhile (p : ascii -> bool) (s : str) :
  skipn (length (Py.takewhile p s)) s = Py.dropwhile p s.
Proof.
  induction s as [|c s IH]; [reflexivity|].
  simpl. destruct (p c); [exact IH | reflexivity].
Qed.

Lemma sub_leading_is_step4 (s : str) :
  Re.sub_leading_digits_hyphens (lit "") s = Spec.step4_strip_ordinal s.
Proof.
  unfold Re.sub_leading_digits_hyphens, Spec.step4_strip_ordinal.
  destruct (Py.takewhile Re.digit_or_hyphen s) eqn:E.
  - destruct s as [|c s]; [reflexivity|].
    simpl in *. destruct (Re.digit_or_hyphen c); [discriminate | reflexivity].
  - rewrite <- E. simpl. apply skipn_takewhile.
Qed.

Lemma strip_is_step5 (s : str) :
  Py.strip Re.is_hyphen s = Spec.step5_strip_hyphens s.
Proof. reflexivity. Qed.

Lemma dropwhile_no_sep (p : ascii -> bool) (sep : ascii) (s : str) :
  no_sep sep s -> no_sep sep (Py.dropwhile p s).
Proof.
  unfold no_sep. induction s as [|c s IH]; [trivial|].
  simpl. intro H. destruct (p c); [|exact H].
  apply andb_true_iff in H as [_ H]. now apply IH.
Qed.

(** The second [split] of the code gives back the components the first
    one made: none of them holds a slash. *)
Lemma sanitize_components (s : str) :
  Py.split slash
    (Py.join (lit "/") (map (Re.sub_leading_digits_hyphens (lit "")) (Py.split slash s)))
  = map Spec.step4_strip_ordinal (Py.split slash s).
Proof.
  rewrite (map_ext _ _ sub_leading_is_step4).
  change (lit "/") with [slash]. apply split_join.
  - intro E. apply map_eq_nil in E. now apply split_not_nil in E.
  - apply Forall_map. eapply Forall_impl; [|apply split_no_sep].
    intros part. apply dropwhile_no_sep.
Qed.

Lemma sanitize_is_spec (path : str) :
  sanitize_for_myst_url path = Spec.sanitize path.
Proof.
  unfold sanitize_for_myst_url, Spec.sanitize, Spec.step6_rejoin.
  rewrite lower_replace_is_step2, sub_hyphen_runs_is_step3, sanitize_components.
  rewrite map_map. reflexivity.
Qed.

(** ** Stripping *)

Lemma takewhile_dropwhile (p : ascii -> bool) (s : str) :
  Py.takewhile p s ++ Py.dropwhile p s = s.
Proof.
  induction s as [|c s IH]; [reflexivity|].
  simpl. destruct (p c); [simpl; now rewrite IH | reflexivity].
Qed.

Lemma dropwhile_app (p : ascii -> bool) (a b : str) :
  Py.dropwhile p (a ++ b) =
  match Py.dropwhile p a with
  | [] => Py.dropwhile p b
  | _ :: _ => Py.dropwhile p a ++ b
  end.
Proof.
  induction a as [|c a IH]; [reflexivity|].
  simpl. destruct (p c); [exact IH | reflexivity].
Qed.

Lemma dropwhile_head (p : ascii -> bool) (s : str) :
  match Py.dropwhile p s with
  | [] => True
  | c :: _ => p c = false
  end.
Proof.
  induction s as [|c s IH]; [exact I|].
  simpl. destruct (p c) eqn:Hc; [exact IH | exact Hc].
Qed.

Lemma dropwhile_id (p : ascii -> bool) (c : ascii) (s : str) :
  p c = false -> Py.dropwhile p (c :: s) = c :: s.
Proof. intro Hc. simpl. now rewrite Hc. Qed.

(** [rstrip] read from the left. *)
Lemma rstrip_cons (p : ascii -> bool) (c : ascii) (s : str) :
  Py.rstrip p (c :: s) =
  match Py.rstrip p s with
  | [] => if p c then [] else [c]
  | _ :: _ => c :: Py.rstrip p s
  end.
Proof.
  unfold Py.rstrip. simpl rev. rewrite dropwhile_app.
  destruct (Py.dropwhile p (rev s)) as [|d r] eqn:E.
  - simpl. destruct (p c); reflexivity.
  - rewrite rev_app_distr. change (rev [c]) with [c].
    remember (rev (d :: r)) as t eqn:E'. destruct t; [|reflexivity].
    apply (f_equal (@length _)) in E'. rewrite length_rev in E'. discriminate.
Qed.

Lemma rstrip_keeps_head (p : ascii -> bool) (c : ascii) (s : str) :
  p c = false -> Py.rstrip p (c :: s) = c :: Py.rstrip p s.
Proof.
  intro Hc. rewrite rstrip_cons, Hc. now destruct (Py.rstrip p s).
Qed.

Lemma rstrip_last (p : ascii -> bool) (s : str) (d : ascii) :
  Py.rstrip p s <> [] -> p (last (Py.rstrip p s) d) = false.
Proof.
  induction s as [|c s IH]; [intros H; now elim H|].
  rewrite rstrip_cons. destruct (Py.rstrip p s) as [|e r] eqn:E.
  - destruct (p c) eqn:Hc; [intros H; now elim H | intros _; exact Hc].
  - intros _. change (last (c :: e :: r) d) with (last (e :: r) d).
    apply IH. discriminate.
Qed.

Lemma rstrip_id (p : ascii -> bool) (s : str) (d : ascii) :
  s <> [] -> p (last s d) = false -> Py.rstrip p s = s.
Proof.
  induction s as [|c s IH]; [intros H; now elim H|].
  intros _ Hl. rewrite rstrip_cons. destruct s as [|e r].
  - simpl in *. unfold Py.rstrip. simpl. now rewrite Hl.
  - rewrite IH; [reflexivity | discriminate | exact Hl].
Qed.

(** What steps 4 and 5 leave of a component is in canonical form, and a
    component in canonical form is left as it is. *)
Lemma strip_canonical (component : str) :
  canonical (Spec.step5_strip_hyphens (Spec.step4_strip_ordinal component)) = true.
Proof.
  unfold Spec.step5_strip_hyphens, Spec.step4_strip_ordinal.
  pose proof (dropwhile_head Re.digit_or_hyphen component) as Hh.
  destruct (Py.dropwhile Re.digit_or_hyphen component) as [|c r]; [reflexivity|].
  pose proof (is_hyphen_digit_or_hyphen c Hh) as Hc.
  rewrite (dropwhile_id _ c r Hc).
  fold (Py.rstrip Re.is_hyphen (c :: r)).
  pose proof (rstrip_last Re.is_hyphen (c :: r) c) as Hl.
  rewrite (rstrip_keeps_head _ c r Hc) in *.
  unfold canonical. rewrite Hh, Hl by discriminate. reflexivity.
Qed.

Lemma canonical_strip_id (component : str) :
  canonical component = true ->
  Spec.step5_strip_hyphens (Spec.step4_strip_ordinal component) = component.
Proof.
  unfold Spec.step5_strip_hyphens, Spec.step4_strip_ordinal.
  destruct component as [|c r]; [reflexivity|].
  unfold canonical. intro H. apply andb_true_iff in H as [Hh Hl].
  apply negb_true_iff in Hh, Hl.
  rewrite (dropwhile_id _ c r Hh).
  rewrite (dropwhile_id _ c r (is_hyphen_digit_or_hyphen c Hh)).
  apply (rstrip_id Re.is_hyphen (c :: r) c); [discriminate | exact Hl].
Qed.

(** ** Which characters a step can leave *)

Lemma dropwhile_incl (p : ascii -> bool) (s : str) : incl (Py.dropwhile p s) s.
Proof.
  induction s as [|c s IH]; [apply incl_refl|].
  simpl. destruct (p c); [now apply incl_tl | apply incl_refl].
Qed.

Lemma rstrip_incl (p : ascii -> bool) (s : str) : incl (Py.rstrip p s) s.
Proof.
  unfold Py.rstrip. intros x Hx. apply in_rev in Hx.
  apply dropwhile_incl in Hx. now apply in_rev.
Qed.

Lemma step45_incl (component : str) :
  incl (Spec.step5_strip_hyphens (Spec.step4_strip_ordinal component)) component.
Proof.
  unfold Spec.step5_strip_hyphens, Spec.step4_strip_ordinal.
  eapply incl_tran; [apply rstrip_incl|].
  eapply incl_tran; apply dropwhile_incl.
Qed.

Lemma step3_incl (s : str) : incl (Spec.step3_collapse s) s.
Proof.
  induction s as [|c s IH]; [apply incl_refl|].
  destruct s as [|d s]; [apply incl_refl|].
  change (Spec.step3_collapse (c :: d :: s))
    with (if Re.is_hyphen c && Re.is_hyphen d then Spec.step3_collapse (d :: s)
          else c :: Spec.step3_collapse (d :: s)).
  destruct (Re.is_hyphen c && Re.is_hyphen d).
  - now apply incl_tl.
  - intros x [->|Hx]; [now left | right; now apply IH].
Qed.

Lemma split_incl (sep : ascii) (s part : str) :
  In part (Py.split sep s) -> incl part s.
Proof.
  revert part. induction s as [|c s IH]; intros part Hp.
  - destruct Hp as [<-|[]]. apply incl_refl.
  - destruct (Ascii.eqb c sep) eqn:Hc.
    + simpl in Hp. rewrite Hc in Hp. destruct Hp as [<-|Hp].
      * intros x [].
      * apply incl_tl. now apply IH.
    + destruct (split_cons_other sep c s Hc) as (p0 & ps & E & E').
      rewrite E' in Hp. rewrite E in IH. destruct Hp as [<-|Hp].
      * intros x [->|Hx]; [now left | right]. apply (IH p0); [now left | exact Hx].
      * apply incl_tl. apply IH. now right.
Qed.

Lemma join_chars (sep : ascii) (parts : list str) (x : ascii) :
  In x (Py.join [sep] parts) ->
  x = sep \/ exists part, In part parts /\ In x part.
Proof.
  induction parts as [|part parts IH]; [intros []|].
  destruct parts as [|part' parts].
  - simpl. intro Hx. right. exists part. split; [now left | exact Hx].
  - change (Py.join [sep] (part :: part' :: parts))
      with (part ++ sep :: Py.join [sep] (part' :: parts)).
    intro Hx. apply in_app_or in Hx as [Hx|[<-|Hx]].
    + right. exists part. split; [now left | exact Hx].
    + now left.
    + destruct (IH Hx) as [->|(q & Hq & Hxq)]; [now left|].
      right. exists q. split; [now right | exact Hxq].
Qed.

Lemma slug_char_lower (c : ascii) :
  slug_char
    (if Ascii.eqb (Py.lower_char c) space || Ascii.eqb (Py.lower_char c) underscore
     then hyphen else Py.lower_char c) = true.
Proof. each_char c; reflexivity. Qed.

Lemma slug_char_fixed (c : ascii) :
  slug_char c = true ->
  (if Ascii.eqb (Py.lower_char c) space || Ascii.eqb (Py.lower_char c) underscore
   then hyphen else Py.lower_char c) = c.
Proof. each_char c; intro H; try reflexivity; discriminate H. Qed.

Lemma step12_slug_chars (s : str) :
  forallb slug_char (Spec.step2_hyphenate (Spec.step1_lowercase s)) = true.
Proof.
  unfold Spec.step2_hyphenate, Spec.step1_lowercase. rewrite map_map.
  apply forallb_forall. intros x Hx. apply in_map_iff in Hx as (c & <- & _).
  apply slug_char_lower.
Qed.

Lemma step12_id (s : str) :
  forallb slug_char s = true ->
  Spec.step2_hyphenate (Spec.step1_lowercase s) = s.
Proof.
  unfold Spec.step2_hyphenate, Spec.step1_lowercase. rewrite map_map.
  intro H. rewrite <- (map_id s) at 2. apply map_ext_in.
  intros c Hc. apply slug_char_fixed. rewrite forallb_forall in H. now apply H.
Qed.

(** ** Runs of hyphens *)

Lemma double_hyphen_app_sep (a b : str) (c : ascii) :
  Re.is_hyphen c = false ->
  double_hyphen (a ++ c :: b) = double_hyphen a || double_hyphen b.
Proof.
  intro Hc. induction a as [|x a IH].
  - simpl. now rewrite Hc.
  - simpl. rewrite IH. destruct a as [|y a]; simpl.
    + rewrite Hc. now rewrite andb_false_r.
    + now rewrite orb_assoc.
Qed.

Lemma double_hyphen_app (a b : str) :
  double_hyphen (a ++ b) = false ->
  double_hyphen a = false /\ double_hyphen b = false.
Proof.
  induction a as [|x a IH]; [now split|].
  simpl. intro H. apply orb_false_iff in H as [Hx H].
  destruct (IH H) as [Ha Hb]. split; [|exact Hb].
  rewrite Ha, orb_false_r. destruct a as [|y a]; [apply andb_false_r | exact Hx].
Qed.

Lemma double_hyphen_join (parts : list str) :
  double_hyphen (Py.join [slash] parts) = false <->
  Forall (fun part => double_hyphen part = false) parts.
Proof.
  induction parts as [|part parts IH]; [split; now constructor|].
  destruct parts as [|part' parts].
  - simpl. split; [now repeat constructor | now inversion 1].
  - change (Py.join [slash] (part :: part' :: parts))
      with (part ++ slash :: Py.join [slash] (part' :: parts)).
    rewrite double_hyphen_app_sep by reflexivity.
    rewrite orb_false_iff, IH. split.
    + intros [H1 H2]. now constructor.
    + inversion 1; subst. now split.
Qed.

Lemma double_hyphen_split (s : str) :
  double_hyphen s = false ->
  Forall (fun part => double_hyphen part = false) (Py.split slash s).
Proof. intro H. apply double_hyphen_join. now rewrite join_split. Qed.

Lemma double_hyphen_rstrip (p : ascii -> bool) (s : str) :
  double_hyphen s = false -> double_hyphen (Py.rstrip p s) = false.
Proof.
  intro H. unfold Py.rstrip.
  rewrite <- (rev_involutive s), <- (takewhile_dropwhile p (rev s)) in H.
  rewrite rev_app_distr in H. now apply double_hyphen_app in H.
Qed.

Lemma double_hyphen_dropwhile (p : ascii -> bool) (s : str) :
  double_hyphen s = false -> double_hyphen (Py.dropwhile p s) = false.
Proof.
  intro H. rewrite <- (takewhile_dropwhile p s) in H.
  now apply double_hyphen_app in H.
Qed.

Lemma double_hyphen_step45 (component : str) :
  double_hyphen component = false ->
  double_hyphen (Spec.step5_strip_hyphens (Spec.step4_strip_ordinal component)) = false.
Proof.
  intro H. apply (double_hyphen_rstrip Re.is_hyphen).
  now do 2 apply double_hyphen_dropwhile.
Qed.

Lemma double_hyphen_step3 (s : str) : double_hyphen (Spec.step3_collapse s) = false.
Proof.
  induction s as [|c s IH]; [reflexivity|].
  destruct s as [|d s]; [simpl; now rewrite andb_false_r|].
  destruct (Re.is_hyphen d) eqn:Hd.
  - destruct (Re.is_hyphen c) eqn:Hc.
    + apply is_hyphen_true in Hc, Hd. subst. now rewrite step3_two_hyphens.
    + rewrite step3_cons_other by exact Hc.
      remember (Spec.step3_collapse (d :: s)) as t. simpl.
      rewrite IH, Hc. reflexivity.
  - rewrite step3_before_other by exact Hd.
    rewrite step3_cons_other in IH by exact Hd.
    simpl in *. rewrite Hd in *. rewrite andb_false_r. exact IH.
Qed.

Lemma step3_id (s : str) : double_hyphen s = false -> Spec.step3_collapse s = s.
Proof.
  induction s as [|c s IH]; [reflexivity|].
  intro H. destruct s as [|d s]; [reflexivity|].
  change (double_hyphen (c :: d :: s))
    with ((Re.is_hyphen c && Re.is_hyphen d) || double_hyphen (d :: s)) in H.
  apply orb_false_iff in H as [Hcd H].
  change (Spec.step3_collapse (c :: d :: s))
    with (if Re.is_hyphen c && Re.is_hyphen d then Spec.step3_collapse (d :: s)
          else c :: Spec.step3_collapse (d :: s)).
  now rewrite Hcd, IH.
Qed.

(** ['--' in s] is [double_hyphen s]. *)
Lemma is_substring_double_hyphen (s : str) :
  Dyn.is_substring (lit "--") s = double_hyphen s.
Proof.
  induction s as [|c s IH]; [reflexivity|].
  change (Dyn.is_substring (lit "--") (c :: s))
    with (Py.startswith (lit "--") (c :: s) || Dyn.is_substring (lit "--") s).
  rewrite IH.
  change (double_hyphen (c :: s))
    with ((Re.is_hyphen c && match s with d :: _ => Re.is_hyphen d | [] => false end)
          || double_hyphen s).
  f_equal. change (lit "--") with [hyphen; hyphen]. unfold Re.is_hyphen.
  cbn [Py.startswith]. rewrite (Ascii.eqb_sym hyphen c).
  destruct s as [|d s]; [reflexivity|].
  now rewrite (Ascii.eqb_sym hyphen d), andb_true_r.
Qed.

(** ** The sanitized form *)

Lemma no_sep_incl (sep : ascii) (a b : str) :
  incl a b -> no_sep sep b -> no_sep sep a.
Proof.
  unfold no_sep. rewrite !forallb_forall. intros Hab Hb x Hx. apply Hb, Hab, Hx.
Qed.

(** The components of the output are the components of the input after
    steps 1 to 3, each one stripped by steps 4 and 5. *)
Lemma split_sanitize (path : str) :
  Py.split slash (Spec.sanitize path) =
  map (fun c => Spec.step5_strip_hyphens (Spec.step4_strip_ordinal c))
    (Py.split slash
       (Spec.step3_collapse (Spec.step2_hyphenate (Spec.step1_lowercase path)))).
Proof.
  unfold Spec.sanitize, Spec.step6_rejoin. apply split_join.
  - intro E. apply map_eq_nil in E. now apply split_not_nil in E.
  - apply Forall_map. eapply Forall_impl; [|apply split_no_sep].
    intros part. apply no_sep_incl, step45_incl.
Qed.

Lemma spec_sanitize_slug_chars (path : str) :
  forallb slug_char (Spec.sanitize path) = true.
Proof.
  apply forallb_forall. intros x Hx.
  apply join_chars in Hx as [->|(part & Hpart & Hx)]; [reflexivity|].
  apply in_map_iff in Hpart as (comp & <- & Hcomp).
  apply step45_incl in Hx. apply (split_incl _ _ _ Hcomp) in Hx.
  apply step3_incl in Hx.
  pose proof (step12_slug_chars path) as H. rewrite forallb_forall in H. now apply H.
Qed.

Lemma spec_sanitize_no_double_hyphen (path : str) :
  double_hyphen (Spec.sanitize path) = false.
Proof.
  apply double_hyphen_join. apply Forall_map.
  eapply Forall_impl; [|apply double_hyphen_split, double_hyphen_step3].
  intros part. apply double_hyphen_step45.
Qed.

Lemma spec_sanitize_canonical (path : str) :
  forallb canonical (Py.split slash (Spec.sanitize path)) = true.
Proof.
  rewrite split_sanitize. apply forallb_forall. intros x Hx.
  apply in_map_iff in Hx as (comp & <- & _). apply strip_canonical.
Qed.

Lemma sanitize_sanitized (path : str) :
  sanitized (sanitize_for_myst_url path) = true.
Proof.
  rewrite sanitize_is_spec. unfold sanitized.
  now rewrite spec_sanitize_slug_chars, spec_sanitize_no_double_hyphen,
    spec_sanitize_canonical.
Qed.

(** A string in sanitized form is a fixed point of the sanitizer. *)
Lemma sanitized_fixed_point (s : str) :
  sanitized s = true -> sanitize_for_myst_url s = s.
Proof.
  unfold sanitized. intro H.
  apply andb_true_iff in H as [H Hcanon]. apply andb_true_iff in H as [Hchars Hdh].
  apply negb_true_iff in Hdh.
  rewrite sanitize_is_spec. unfold Spec.sanitize, Spec.step6_rejoin.
  rewrite (step12_id s Hchars), (step3_id s Hdh).
  rewrite <- (join_split slash s) at 2. f_equal.
  rewrite <- (map_id (Py.split slash s)) at 2. apply map_ext_in.
  intros comp Hcomp. apply canonical_strip_id.
  rewrite forallb_forall in Hcanon. now apply Hcanon.
Qed.

(** ** The number of components *)

Lemma count_sep_map (f : ascii -> ascii) (sep : ascii) (s : str) :
  (forall c, Ascii.eqb (f c) sep = Ascii.eqb c sep) ->
  length (filter (fun c => Ascii.eqb c sep) (map f s))
  = length (filter (fun c => Ascii.eqb c sep) s).
Proof.
  intro Hf. induction s as [|c s IH]; [reflexivity|].
  simpl. rewrite Hf. destruct (Ascii.eqb c sep); simpl; now rewrite IH.
Qed.

Lemma step2_slash (c : ascii) :
  Ascii.eqb (if Ascii.eqb c space || Ascii.eqb c underscore then hyphen else c) slash
  = Ascii.eqb c slash.
Proof. each_char c; reflexivity. Qed.

Lemma count_slash_step3 (s : str) :
  filter (fun c => Ascii.eqb c slash) (Spec.step3_collapse s)
  = filter (fun c => Ascii.eqb c slash) s.
Proof.
  induction s as [|c s IH]; [reflexivity|].
  destruct s as [|d s]; [reflexivity|].
  change (Spec.step3_collapse (c :: d :: s))
    with (if Re.is_hyphen c && Re.is_hyphen d then Spec.step3_collapse (d :: s)
          else c :: Spec.step3_collapse (d :: s)).
  destruct (Re.is_hyphen c) eqn:Hc.
  - apply is_hyphen_true in Hc. subst c.
    destruct (Re.is_hyphen d); cbn [andb]; [exact IH|].
    cbn [filter] in *. change (Ascii.eqb hyphen slash) with false. cbv iota. exact IH.
  - cbn [andb]. cbn [filter] in *. destruct (Ascii.eqb c slash); now rewrite IH.
Qed.

Lemma component_count_steps123 (path : str) :
  component_count
    (Spec.step3_collapse (Spec.step2_hyphenate (Spec.step1_lowercase path)))
  = component_count path.
Proof.
  unfold component_count. rewrite !length_split. f_equal.
  rewrite count_slash_step3. unfold Spec.step2_hyphenate, Spec.step1_lowercase.
  rewrite (count_sep_map _ slash _ step2_slash).
  apply count_sep_map, lower_char_slash.
Qed.

Lemma component_count_sanitize (path : str) :
  component_count (sanitize_for_myst_url path) = component_count path.
Proof.
  rewrite sanitize_is_spec. unfold component_count at 1.
  rewrite split_sanitize, length_map. apply component_count_steps123.
Qed.

Lemma slug_chars_shape (s : str) :
  forallb slug_char s = true ->
  Py.lower s = s /\ existsb Py.is_upper s = false /\
  ~ In underscore s /\ ~ In space s.
Proof.
  intro H. rewrite forallb_forall in H.
  assert (Hc : forall c, In c s ->
             Py.is_upper c = false /\ c <> space /\ c <> underscore).
  { intros c Hc. specialize (H c Hc). unfold slug_char in H.
    apply andb_true_iff in H as [H Hu]. apply andb_true_iff in H as [Hup Hsp].
    apply negb_true_iff in Hu, Hup, Hsp. apply Ascii.eqb_neq in Hu, Hsp. now repeat split. }
  repeat split.
  - unfold Py.lower. rewrite <- (map_id s) at 2. apply map_ext_in.
    intros c Hin. apply not_upper_lower_char. now apply Hc.
  - apply not_true_is_false. intro E. apply existsb_exists in E as (c & Hin & Hup).
    destruct (Hc c Hin) as [Hn _]. congruence.
  - intro Hin. now destruct (Hc _ Hin) as (_ & _ & Hn).
  - intro Hin. now destruct (Hc _ Hin) as (_ & Hn & _).
Qed.

Lemma endswith_last (c d : ascii) (s : str) :
  s <> [] -> Py.endswith [c] s = Ascii.eqb c (last s d).
Proof.
  intro Hs. unfold Py.endswith.
  rewrite (app_removelast_last d Hs) at 1. rewrite rev_app_distr.
  simpl. apply andb_true_r.
Qed.

Lemma canonical_spec (component : str) :
  canonical component = true ->
  component = [] \/
  (exists c rest, component = c :: rest /\ Re.is_digit c = false /\ c <> hyphen) /\
  Py.endswith (lit "-") component = false.
Proof.
  destruct component as [|c rest]; [now left|].
  unfold canonical. intro H. right.
  apply andb_true_iff in H as [Hh Hl]. apply negb_true_iff in Hh, Hl.
  split.
  - exists c, rest. unfold Re.digit_or_hyphen in Hh. apply orb_false_iff in Hh as [Hd Hy].
    repeat split; [exact Hd|]. intro E. apply is_hyphen_true in E. congruence.
  - change (lit "-") with [hyphen]. rewrite (endswith_last hyphen c) by discriminate.
    rewrite Ascii.eqb_sym. exact Hl.
Qed.

(** ** The sanitizer: claims *)

(** C1. [sanitize_for_myst_url] equals, on every input string, the six-step
    reference algorithm of the specification applied in order (lowercase;
    spaces and underscores to hyphens; runs of hyphens collapsed; per
    component the leading digits and hyphens stripped; per component the
    leading and trailing hyphens stripped; rejoined with a slash), and it
    maps the seven literal examples as listed. *)
Theorem sanitize_reference_algorithm :
  (forall path : str, sanitize_for_myst_url path = Spec.sanitize path) /\
  sanitize_for_myst_url (lit "Test With Spaces") = lit "test-with-spaces" /\
  sanitize_for_myst_url (lit "TestMixedCase") = lit "testmixedcase" /\
  sanitize_for_myst_url (lit "test_with_underscores") = lit "test-with-underscores" /\
  sanitize_for_myst_url (lit "_LeadingUnderscore") = lit "leadingunderscore" /\
  sanitize_for_myst_url (lit "Multiple___Special") = lit "multiple-special" /\
  sanitize_for_myst_url (lit "charters/MediaStrategyCharter")
    = lit "charters/mediastrategycharter" /\
  sanitize_for_myst_url (lit "content/01-demand/01-demand")
    = lit "content/demand/demand".
Proof.
  split; [exact sanitize_is_spec|].
  repeat split; vm_compute; reflexivity.
Qed.

(** C2. [sanitize_for_myst_url] is idempotent: sanitizing a sanitized
    string gives the same string. *)
Theorem sanitize_idempotent (s : str) :
  sanitize_for_myst_url (sanitize_for_myst_url s) = sanitize_for_myst_url s.
Proof. apply sanitized_fixed_point, sanitize_sanitized. Qed.

(** C3. The output of [sanitize_for_myst_url] is entirely lowercase
    ([lower] leaves it as it is), holds
    no underscore, no space and no two hyphens in a row, and has as many
    slash-separated components as the input; the empty input gives the
    empty output, and a component that stripping empties stays as an empty
    segment. *)
Theorem sanitize_output_shape :
  (forall path : str,
     let out := sanitize_for_myst_url path in
     Py.lower out = out /\
     ~ In underscore out /\
     ~ In space out /\
     Dyn.is_substring (lit "--") out = false /\
     component_count out = component_count path) /\
  sanitize_for_myst_url (lit "") = lit "" /\
  sanitize_for_myst_url (lit "a/01-/b") = lit "a//b".
Proof.
  split; [|split; reflexivity].
  intros path out.
  pose proof (sanitize_sanitized path) as H. fold out in H. unfold sanitized in H.
  apply andb_true_iff in H as [H _]. apply andb_true_iff in H as [Hchars Hdh].
  apply negb_true_iff in Hdh.
  destruct (slug_chars_shape out Hchars) as (H1 & H2 & H3 & H4).
  repeat split; try assumption.
  - now rewrite is_substring_double_hyphen.
  - apply component_count_sanitize.
Qed.

(** C10. Every slash-separated component of the output of
    [sanitize_for_myst_url] is empty, or begins with a character that is
    neither a digit nor a hyphen and does not end with a hyphen; the two
    stripping steps of the sanitizer leave such a component as it is. *)
Theorem sanitize_components_canonical (path : str) :
  Forall
    (fun component =>
       (component = [] \/
        (exists c rest, component = c :: rest /\ Re.is_digit c = false /\ c <> hyphen) /\
        Py.endswith (lit "-") component = false) /\
       Py.strip Re.is_hyphen (Re.sub_leading_digits_hyphens (lit "") component)
       = component)
    (Py.split slash (sanitize_for_myst_url path)).
Proof.
  pose proof (sanitize_sanitized path) as H. unfold sanitized in H.
  apply andb_true_iff in H as [_ H]. rewrite forallb_forall in H.
  apply Forall_forall. intros comp Hcomp. specialize (H comp Hcomp). split.
  - now apply canonical_spec.
  - rewrite sub_leading_is_step4, strip_is_step5. now apply canonical_strip_id.
Qed.

(** ** [flatten_toc]: the bound on the nesting is never reached *)

Lemma for_each_ext {A S : Type} (l : list A) (f g : S -> A -> result S) :
  (forall x, In x l -> forall vars, f vars x = g vars x) ->
  forall vars, for_each l vars f = for_each l vars g.
Proof.
  induction l as [|x l IH]; intros H vars; [reflexivity|].
  simpl. rewrite (H x (or_introl eq_refl)).
  destruct (g vars x); [|reflexivity].
  apply IH. intros y Hy. apply H. now right.
Qed.

Lemma depth_item (items : list yaml) (x : yaml) :
  In x items -> depth x < depth (YList items).
Proof.
  simpl. induction items as [|y items IH]; intros []; simpl.
  - subst. lia.
  - specialize (IH H). lia.
Qed.

Lemma depth_entry (entries : list (yaml * yaml)) (kv : yaml * yaml) :
  In kv entries ->
  depth (fst kv) < depth (YDict entries) /\ depth (snd kv) < depth (YDict entries).
Proof.
  simpl. induction entries as [|e entries IH]; intros []; simpl.
  - subst. lia.
  - specialize (IH H). lia.
Qed.

Lemma depth_iter (toc : yaml) (items : list yaml) (x : yaml) :
  Dyn.iter toc = Ok items -> In x items -> depth x <= depth toc.
Proof.
  destruct toc; simpl; try discriminate; intros [= <-] Hx.
  - apply in_map_iff in Hx as (c & <- & _). simpl. lia.
  - apply depth_item in Hx. simpl in Hx. lia.
  - apply in_map_iff in Hx as (kv & <- & Hkv).
    apply depth_entry in Hkv. simpl in Hkv. lia.
Qed.

Lemma depth_getitem (item child : yaml) (key : str) :
  Dyn.getitem item key = Ok child -> depth child < depth item.
Proof.
  destruct item; simpl; try discriminate.
  destruct (find _ entries) as [kv|] eqn:E; [|discriminate].
  intros [= <-]. apply find_some in E as [Hin _]. now apply depth_entry in Hin.
Qed.

Lemma flatten_item_ext (f g : yaml -> result (list yaml)) (files : list yaml)
    (item : yaml) :
  (forall children, depth children < depth item -> f children = g children) ->
  flatten_item f files item = flatten_item g files item.
Proof.
  intro H. unfold flatten_item.
  destruct (Dyn.contains (lit "file") item) as [has_file|]; [|reflexivity]. simpl.
  destruct (if has_file then _ else _) as [files'|]; [|reflexivity]. simpl.
  destruct (Dyn.contains (lit "children") item) as [[]|]; try reflexivity. simpl.
  destruct (Dyn.getitem item (lit "children")) as [children|] eqn:E; [|reflexivity].
  simpl. rewrite (H children); [reflexivity|]. now apply depth_getitem in E.
Qed.

Lemma flatten_toc_within_any (n m : nat) (toc : yaml) :
  depth toc < n -> depth toc < m ->
  flatten_toc_within n toc = flatten_toc_within m toc.
Proof.
  revert m toc. induction n as [|n IH]; intros [|m] toc Hn Hm; try lia.
  simpl. destruct (Dyn.iter toc) as [items|] eqn:E; [|reflexivity]. simpl.
  apply for_each_ext. intros item Hitem files.
  apply flatten_item_ext. intros children Hc.
  pose proof (depth_iter toc items item E Hitem).
  apply IH; lia.
Qed.

(** With enough nested calls allowed, the bounded function is [flatten_toc]:
    the bound does not show in the result. *)
Lemma flatten_toc_within_enough (n : nat) (toc : yaml) :
  depth toc < n -> flatten_toc_within n toc = flatten_toc toc.
Proof. intro H. apply flatten_toc_within_any; [exact H | lia]. Qed.

(** [flatten_toc] satisfies the recursive equation of the source. *)
Lemma flatten_toc_eq (toc : yaml) :
  flatten_toc toc =
  (items <- Dyn.iter toc ;; for_each items [] (flatten_item flatten_toc)).
Proof.
  unfold flatten_toc at 1. simpl.
  destruct (Dyn.iter toc) as [items|] eqn:E; [|reflexivity]. simpl.
  apply for_each_ext. intros item Hitem files.
  apply flatten_item_ext. intros children Hc.
  pose proof (depth_iter toc items item E Hitem).
  apply flatten_toc_within_enough. lia.
Qed.

(** [flatten_toc] never stops on the bound: it fails only where Python
    raises, with a [TypeError] or a [KeyError]. *)
Lemma contains_raises (key : str) (v : yaml) (e : exn) :
  Dyn.contains key v = Raise e -> dynamic_error e.
Proof. destruct v; simpl; intros [= <-]; now left. Qed.

Lemma getitem_raises (v : yaml) (key : str) (e : exn) :
  Dyn.getitem v key = Raise e -> dynamic_error e.
Proof.
  destruct v; simpl; try (intros [= <-]; now left).
  destruct (find _ entries); intros [= <-]. right. now exists key.
Qed.

Lemma iter_raises (v : yaml) (e : exn) : Dyn.iter v = Raise e -> dynamic_error e.
Proof. destruct v; simpl; intros [= <-]; now left. Qed.

Lemma flatten_item_raises (f : yaml -> result (list yaml)) (files : list yaml)
    (item : yaml) (e : exn) :
  (forall children e', depth children < depth item ->
                       f children = Raise e' -> dynamic_error e') ->
  flatten_item f files item = Raise e -> dynamic_error e.
Proof.
  intro H. unfold flatten_item.
  destruct (Dyn.contains (lit "file") item) as [has_file|e1] eqn:E1; simpl;
    [|intros [= <-]; exact (contains_raises _ _ _ E1)].
  assert (H2 : forall e2,
             (if has_file
              then file <- Dyn.getitem item (lit "file") ;; ret (files ++ [file])
              else ret files) = Raise e2 -> dynamic_error e2).
  { intro e2. destruct has_file; [|discriminate].
    destruct (Dyn.getitem item (lit "file")) eqn:G; simpl; [discriminate|].
    intros [= <-]. exact (getitem_raises _ _ _ G). }
  destruct (if has_file then _ else _) as [files'|e2]; simpl;
    [|intros [= <-]; now apply H2].
  destruct (Dyn.contains (lit "children") item) as [[]|e3] eqn:E3; simpl;
    [|discriminate|intros [= <-]; exact (contains_raises _ _ _ E3)].
  destruct (Dyn.getitem item (lit "children")) as [children|e4] eqn:E4; simpl;
    [|intros [= <-]; exact (getitem_raises _ _ _ E4)].
  apply depth_getitem in E4.
  destruct (f children) as [sub|e5] eqn:E5; simpl; [discriminate|].
  intros [= <-]. exact (H children e5 E4 E5).
Qed.

Lemma for_each_raises {A S : Type} (l : list A) (f : S -> A -> result S)
    (P : exn -> Prop) :
  (forall x, In x l -> forall vars e, f vars x = Raise e -> P e) ->
  forall vars e, for_each l vars f = Raise e -> P e.
Proof.
  induction l as [|x l IH]; intros H vars e; simpl; [discriminate|].
  destruct (f vars x) as [vars'|e'] eqn:E.
  - apply IH. intros y Hy. apply H. now right.
  - intros [= <-]. exact (H x (or_introl eq_refl) vars e' E).
Qed.

Lemma flatten_toc_raises (toc : yaml) (e : exn) :
  flatten_toc toc = Raise e -> dynamic_error e.
Proof.
  remember (S (depth toc)) as d eqn:Hd.
  assert (H : depth toc < d) by lia. clear Hd. revert toc e H.
  induction d as [|d IH]; intros toc e H; [lia|].
  rewrite flatten_toc_eq.
  destruct (Dyn.iter toc) as [items|e1] eqn:E; simpl;
    [|intros [= <-]; exact (iter_raises _ _ E)].
  apply for_each_raises. intros item Hitem files e'.
  apply flatten_item_raises. intros children e'' Hc.
  pose proof (depth_iter toc items item E Hitem).
  apply IH. lia.
Qed.

Lemma flatten_toc_total (toc : yaml) : flatten_toc toc <> Raise OtherError.
Proof.
  intro H. apply flatten_toc_raises in H as [H|[key H]]; discriminate.
Qed.

(** ** [flatten_toc] on a well-formed table of contents *)

Lemma flatten_entries (toc : list toc_entry) :
  Forall (fun e => forall files,
            flatten_item flatten_toc files (entry_to_yaml e)
            = Ok (files ++ map YStr (preorder e))) toc ->
  forall files,
    for_each (map entry_to_yaml toc) files (flatten_item flatten_toc)
    = Ok (files ++ map YStr (preorder_toc toc)).
Proof.
  induction 1 as [|e toc He _ IH]; intro files.
  - simpl. now rewrite app_nil_r.
  - simpl. rewrite He. simpl. rewrite IH.
    unfold preorder_toc. simpl. now rewrite map_app, app_assoc.
Qed.

Lemma contains_file_entry (file : option str) (children : option (list toc_entry)) :
  Dyn.contains (lit "file") (entry_to_yaml (Entry file children))
  = Ok (match file with Some _ => true | None => false end).
Proof. destruct file, children; reflexivity. Qed.

Lemma getitem_file_entry (f : str) (children : option (list toc_entry)) :
  Dyn.getitem (entry_to_yaml (Entry (Some f) children)) (lit "file") = Ok (YStr f).
Proof. destruct children; reflexivity. Qed.

Lemma contains_children_entry (file : option str) (children : option (list toc_entry)) :
  Dyn.contains (lit "children") (entry_to_yaml (Entry file children))
  = Ok (match children with Some _ => true | None => false end).
Proof. destruct file, children; reflexivity. Qed.

Lemma getitem_children_entry (file : option str) (children : list toc_entry) :
  Dyn.getitem (entry_to_yaml (Entry file (Some children))) (lit "children")
  = Ok (YList (map entry_to_yaml children)).
Proof. destruct file; reflexivity. Qed.

Lemma flatten_entry (e : toc_entry) (files : list yaml) :
  flatten_item flatten_toc files (entry_to_yaml e)
  = Ok (files ++ map YStr (preorder e)).
Proof.
  revert files. induction e as [file|file children IH] using toc_entry_induction;
    intro files; unfold flatten_item;
    rewrite contains_file_entry, contains_children_entry.
  - destruct file as [f|]; [rewrite getitem_file_entry|]; simpl;
      now rewrite ?app_nil_r.
  - assert (Hsub : flatten_toc (YList (map entry_to_yaml children))
                   = Ok (map YStr (preorder_toc children))).
    { rewrite flatten_toc_eq. simpl. now rewrite (flatten_entries children IH). }
    rewrite getitem_children_entry.
    destruct file as [f|]; [rewrite getitem_file_entry|];
      cbn [bind ret result_monad]; rewrite Hsub.
    + cbn [preorder optional]. fold (preorder_toc children).
      now rewrite map_app, app_assoc.
    + reflexivity.
Qed.

Lemma flatten_toc_preorder (toc : list toc_entry) :
  flatten_toc (toc_to_yaml toc) = Ok (map YStr (preorder_toc toc)).
Proof.
  unfold toc_to_yaml. rewrite flatten_toc_eq. simpl.
  rewrite flatten_entries; [reflexivity|].
  apply Forall_forall. intros e _ files. apply flatten_entry.
Qed.

Lemma load_single_file (p : str) (toc : yaml) :
  load_myst_toc (single_file p (config_of_toc toc)) p = flatten_toc toc.
Proof.
  unfold load_myst_toc, path_exists, safe_load, single_file.
  rewrite str_eqb_refl. reflexivity.
Qed.

(** C6. For every table-of-contents tree, [flatten_toc], and with it the
    loader, returns the file paths in pre-order: the file of an entry comes
    before the files of its children, and siblings keep the order of their
    declaration. *)
Theorem flatten_toc_is_preorder :
  (forall toc : list toc_entry,
     flatten_toc (toc_to_yaml toc) = Ok (map YStr (preorder_toc toc))) /\
  (forall (p : str) (toc : list toc_entry),
     load_myst_toc (single_file p (config_of_toc (toc_to_yaml toc))) p
     = Ok (map YStr (preorder_toc toc))) /\
  (forall file children rest,
     preorder_toc (Entry file (Some children) :: rest)
     = optional file ++ preorder_toc children ++ preorder_toc rest).
Proof.
  split; [exact flatten_toc_preorder|]. split.
  - intros p toc. rewrite load_single_file. apply flatten_toc_preorder.
  - intros file children rest. unfold preorder_toc. simpl. now rewrite app_assoc.
Qed.

(** ** [load_myst_toc] on a document without the expected structure *)

Lemma load_myst_toc_not_found (fs : filesystem) (p : str) :
  fs p = None ->
  load_myst_toc fs p = Raise (FileNotFoundError (lit "MyST config file not found: " ++ p)).
Proof. intro H. unfold load_myst_toc, path_exists. now rewrite H. Qed.

(** What [load_myst_toc] can raise on a file that exists and parses. *)
Lemma load_myst_toc_raises (fs : filesystem) (p : str) (config : yaml) (e : exn) :
  fs p = Some (Some config) -> load_myst_toc fs p = Raise e -> dynamic_error e.
Proof.
  intro H. unfold load_myst_toc, path_exists, safe_load. rewrite H. simpl.
  destruct (Dyn.contains (lit "project") config) as [has_project|e1] eqn:E1; simpl;
    [|intros [= <-]; exact (contains_raises _ _ _ E1)].
  destruct has_project; simpl;
    [|intros [= <-]; right; now eexists].
  destruct (Dyn.getitem config (lit "project")) as [project|e2] eqn:E2; simpl;
    [|intros [= <-]; exact (getitem_raises _ _ _ E2)].
  destruct (Dyn.contains (lit "toc") project) as [has_toc|e3] eqn:E3; simpl;
    [|intros [= <-]; exact (contains_raises _ _ _ E3)].
  destruct has_toc; simpl; [|intros [= <-]; right; now eexists].
  destruct (Dyn.getitem project (lit "toc")) as [toc|e4] eqn:E4; simpl;
    [|intros [= <-]; exact (getitem_raises _ _ _ E4)].
  apply flatten_toc_raises.
Qed.

(** [FileNotFoundError] is raised exactly on a missing path. *)
Lemma load_myst_toc_not_found_iff (fs : filesystem) (p : str) :
  (exists msg, load_myst_toc fs p = Raise (FileNotFoundError msg)) <-> fs p = None.
Proof.
  split; [|intro H; eexists; now apply load_myst_toc_not_found].
  intros [msg H]. destruct (fs p) as [[config|]|] eqn:E; [| |reflexivity].
  - apply (load_myst_toc_raises fs p config _ E) in H as [H|[key H]]; discriminate.
  - unfold load_myst_toc, path_exists, safe_load in H. rewrite E in H. discriminate.
Qed.

(** On a document of the required shape no [KeyError] of the structure
    check is raised: the loader goes on to [flatten_toc]. *)
Lemma load_myst_toc_shaped (fs : filesystem) (p : str) (config : yaml) :
  fs p = Some (Some config) -> has_project_toc config = true ->
  exists project toc,
    Dyn.getitem config (lit "project") = Ok project /\
    Dyn.getitem project (lit "toc") = Ok toc /\
    load_myst_toc fs p = flatten_toc toc.
Proof.
  intros H Hshape. unfold load_myst_toc, path_exists, safe_load. rewrite H.
  destruct config as [| | | | |entries]; try discriminate. simpl in Hshape.
  cbn [negb bind ret result_monad Dyn.contains Dyn.getitem].
  destruct (find _ entries) as [[k [| | | | |project]]|] eqn:F; try discriminate.
  assert (Hp : existsb (fun kv => Dyn.eq_str (fst kv) (lit "project")) entries = true).
  { apply existsb_exists. exists (k, YDict project).
    apply find_some in F. exact F. }
  rewrite Hp. cbn [negb snd Dyn.contains Dyn.getitem]. rewrite Hshape. cbn [negb].
  destruct (find _ project) as [kv|] eqn:G.
  - exists (YDict project), (snd kv). repeat split. simpl. now rewrite G.
  - apply existsb_exists in Hshape as (kv & Hin & Hk).
    now rewrite (find_none _ _ G kv Hin) in Hk.
Qed.

(** C7. The loader on an existing configuration file that is empty, or
    whose [project] section is empty: the document lacks the [project.toc]
    shape, and the loader stops on a [TypeError], not on the [KeyError] its
    documentation gives for a file without the expected structure.  On a
    missing file it raises [FileNotFoundError], and on a mapping without
    [project] the [KeyError]. *)
Theorem load_myst_toc_empty_document :
  let p := lit "myst.yml" in
  let empty_project := YDict [(YStr (lit "project"), YNone)] in
  (has_project_toc YNone = false /\
   load_myst_toc (single_file p YNone) p = Raise TypeError) /\
  (has_project_toc empty_project = false /\
   load_myst_toc (single_file p empty_project) p = Raise TypeError) /\
  load_myst_toc (fun _ => None) p
    = Raise (FileNotFoundError (lit "MyST config file not found: myst.yml")) /\
  load_myst_toc (single_file p (YDict [])) p
    = Raise (KeyError (lit "MyST config must have 'project.toc' structure")).
Proof. repeat split. Qed.

(** ** [create_redirect_html] *)

Lemma redirect_html_template (new_url : str) :
  redirect_html new_url =
  Template.before_refresh_target ++ new_url ++
  Template.before_link_target ++ new_url ++
  Template.before_link_text ++ new_url ++
  Template.ending.
Proof. reflexivity. Qed.

(** C9, as the code has it.  The content written by [create_redirect_html]
    is the fixed template with the destination URL in three places: the
    target of the refresh, the target of the fallback link and the text of
    that link. *)
Theorem create_redirect_html_content (old_slug new_url : str) (output_root : path) :
  create_redirect_html old_slug new_url output_root =
  ([Mkdir (Parent (Div output_root old_slug));
    WriteText (Div output_root old_slug)
      (Template.before_refresh_target ++ new_url ++
       Template.before_link_target ++ new_url ++
       Template.before_link_text ++ new_url ++
       Template.ending)],
   Ok (Div output_root old_slug)).
Proof. reflexivity. Qed.

(** C9, as stated, fails: the page written for [https://example.com/] holds
    the URL three times, and no template with two places for the URL gives
    the content for every URL. *)
Lemma create_redirect_html_not_twice :
  map (fun file_text => count (lit "https://example.com/") (snd file_text))
    (written (fst (create_redirect_html (lit "overview.html")
                     (lit "https://example.com/") (Path (lit "_build/html")))))
  = [3] /\
  ~ (exists before between after : str,
       forall old_slug new_url output_root,
         written (fst (create_redirect_html old_slug new_url output_root))
         = [(Div output_root old_slug, before ++ new_url ++ between ++ new_url ++ after)]).
Proof.
  split.
  - vm_compute. reflexivity.
  - intros (before & between & after & H).
    assert (E : forall u, length (redirect_html u)
                          = length before + length between + length after + 2 * length u).
    { intro u. specialize (H [] u (Path [])).
      change (written (fst (create_redirect_html [] u (Path []))))
        with [(Div (Path []) [], redirect_html u)] in H.
      injection H as ->. rewrite !length_app. lia. }
    pose proof (E []) as E0. pose proof (E (lit "a")) as E1.
    assert (D : length (redirect_html (lit "a")) = length (redirect_html []) + 3)
      by reflexivity.
    rewrite E0, E1 in D. change (length (lit "a")) with 1 in D.
    change (length (@nil ascii)) with 0 in D. lia.
Qed.

(** ** [generate_redirects] *)

Lemma endswith_normalized (base_url : str) :
  Py.endswith (lit "/") (normalized base_url) = true.
Proof.
  unfold normalized. destruct (Py.endswith (lit "/") base_url) eqn:E; [exact E|].
  unfold Py.endswith. rewrite rev_app_distr. reflexivity.
Qed.

(** A loop whose body performs the events of its element and adds one to the
    counter. *)
Lemma for_each_counting {A : Type} (l : list A) (body : nat -> A -> io nat)
    (events : A -> list event) :
  (forall x, In x l -> forall n, body n x = (events x, Ok (n + 1))) ->
  forall n, for_each l n body = (flat_map events l, Ok (n + length l)).
Proof.
  induction l as [|x l IH]; intros H n.
  - simpl. now rewrite Nat.add_0_r.
  - cbn [for_each bind io_monad]. rewrite (H x (or_introl eq_refl)).
    rewrite IH by (intros y Hy; apply H; now right).
    cbn [flat_map length]. f_equal. f_equal. lia.
Qed.

(** The whole run of [generate_redirects] on a list of file paths. *)
Lemma generate_redirects_run (fs : filesystem) (base_url : str) (output_root : path)
    (myst_config_path : str) (file_paths : list str) :
  load_myst_toc fs myst_config_path = Ok (map YStr file_paths) ->
  generate_redirects fs base_url output_root myst_config_path =
  match file_paths with
  | [] => ([Echo Stderr (lit "No files found in TOC")], Ok 0)
  | index_file_path :: _ =>
      (flat_map (redirect_events output_root (normalized base_url)
                   (slug_of index_file_path)) file_paths,
       Ok (length file_paths))
  end.
Proof.
  intro Hload. unfold generate_redirects. rewrite Hload.
  destruct file_paths as [|index_file_path rest]; [reflexivity|].
  change (map YStr (index_file_path :: rest))
    with (YStr index_file_path :: map YStr rest).
  cbn [lift bind ret io_monad result_monad Dyn.replace app].
  change (YStr index_file_path :: map YStr rest)
    with (map YStr (index_file_path :: rest)).
  rewrite (for_each_counting _ _
             (fun v => match v with
                       | YStr p => redirect_events output_root (normalized base_url)
                                     (slug_of index_file_path) p
                       | _ => []
                       end)).
  - rewrite flat_map_concat_map, map_map, <- flat_map_concat_map.
    rewrite length_map. reflexivity.
  - intros v Hv n. apply in_map_iff in Hv as (p & <- & _).
    unfold normalized. destruct (Py.endswith (lit "/") base_url); reflexivity.
Qed.

Lemma written_redirects (output_root : path) (base index_slug : str)
    (file_paths : list str) :
  written (flat_map (redirect_events output_root base index_slug) file_paths)
  = map (fun p => (Div output_root (old_url p),
                   redirect_html (new_url_for base index_slug p))) file_paths.
Proof. induction file_paths as [|p l IH]; [reflexivity|]. simpl. now rewrite IH. Qed.

Lemma echoed_redirects (output_root : path) (base index_slug : str)
    (file_paths : list str) :
  echoed Stdout (flat_map (redirect_events output_root base index_slug) file_paths)
  = map (fun p => old_url p ++ lit " -> " ++ new_url_for base index_slug p) file_paths.
Proof. induction file_paths as [|p l IH]; [reflexivity|]. simpl. now rewrite IH. Qed.

(** C4. [generate_redirects] first makes the base URL end with a slash and
    takes the sanitized slug of [file_paths[0]] as [index_slug]; the new URL
    of every file path of the list is that base URL when the sanitized slug
    of the path without its extension equals [index_slug], and the base URL
    followed by the slug and a slash otherwise.  The new URLs are read off
    the pages written and the lines echoed. *)
Theorem generate_redirects_new_urls (fs : filesystem) (base_url : str)
    (output_root : path) (myst_config_path : str) (file_paths : list str) :
  load_myst_toc fs myst_config_path = Ok (map YStr file_paths) ->
  let base := if Py.endswith (lit "/") base_url then base_url else base_url ++ lit "/" in
  let index_slug := sanitize_for_myst_url (extensionless (hd [] file_paths)) in
  let new_url file_path :=
    let new_slug := sanitize_for_myst_url (extensionless file_path) in
    if str_eqb new_slug index_slug then base else base ++ new_slug ++ lit "/" in
  let trace := fst (generate_redirects fs base_url output_root myst_config_path) in
  Py.endswith (lit "/") base = true /\
  map snd (written trace) = map (fun p => redirect_html (new_url p)) file_paths /\
  echoed Stdout trace = map (fun p => old_url p ++ lit " -> " ++ new_url p) file_paths.
Proof.
  intros Hload base index_slug new_url trace.
  split; [apply endswith_normalized|].
  unfold trace. rewrite (generate_redirects_run _ _ _ _ _ Hload).
  destruct file_paths as [|index_file_path rest]; [now split|].
  cbn [fst]. rewrite written_redirects, echoed_redirects, map_map. now split.
Qed.

Lemma generate_redirects_new_urls_witness :
  load_myst_toc Scenario.fs (lit "myst.yml") = Ok (map YStr Scenario.file_paths) /\
  map snd (written (fst (generate_redirects Scenario.fs (lit "https://example.com")
                           Scenario.output_root (lit "myst.yml"))))
  = [redirect_html (lit "https://example.com/");
     redirect_html (lit "https://example.com/content/intro/")].
Proof.
  split; [reflexivity|].
  apply (generate_redirects_new_urls Scenario.fs (lit "https://example.com")
           Scenario.output_root (lit "myst.yml") Scenario.file_paths).
  reflexivity.
Defined.

(** C5. The old URL of every file path of the list, which is the path of
    the redirect file written for it, is the file path with every [.md] and
    then every [.ipynb] replaced by [.html]: a substitution on substrings,
    so that [.md] inside a name is replaced as well. *)
Theorem generate_redirects_old_urls (fs : filesystem) (base_url : str)
    (output_root : path) (myst_config_path : str) (file_paths : list str) :
  load_myst_toc fs myst_config_path = Ok (map YStr file_paths) ->
  map fst (written (fst (generate_redirects fs base_url output_root myst_config_path)))
  = map (fun p => Div output_root
                    (Py.replace (lit ".ipynb") (lit ".html")
                       (Py.replace (lit ".md") (lit ".html") p))) file_paths /\
  Py.replace (lit ".ipynb") (lit ".html")
    (Py.replace (lit ".md") (lit ".html") (lit "content/my.md-notes.md"))
  = lit "content/my.html-notes.html".
Proof.
  intro Hload. split; [|reflexivity].
  rewrite (generate_redirects_run _ _ _ _ _ Hload).
  destruct file_paths as [|index_file_path rest]; [reflexivity|].
  cbn [fst]. rewrite written_redirects, map_map. reflexivity.
Qed.

Lemma generate_redirects_old_urls_witness :
  load_myst_toc Scenario.fs (lit "myst.yml") = Ok (map YStr Scenario.file_paths) /\
  map fst (written (fst (generate_redirects Scenario.fs Scenario.base_url
                           Scenario.output_root (lit "myst.yml"))))
  = [Div Scenario.output_root (lit "overview.html");
     Div Scenario.output_root (lit "content/01-intro.html")].
Proof.
  split; [reflexivity|].
  apply (generate_redirects_old_urls Scenario.fs Scenario.base_url
           Scenario.output_root (lit "myst.yml") Scenario.file_paths).
  reflexivity.
Defined.

(** * Further properties of the sanitizer *)

(** ** One component at a time *)

Lemma step3_app_sep (x y : str) (c : ascii) :
  Re.is_hyphen c = false ->
  Spec.step3_collapse (x ++ c :: y) = Spec.step3_collapse x ++ c :: Spec.step3_collapse y.
Proof.
  intro Hc. induction x as [|a x IH].
  - now apply step3_cons_other.
  - destruct x as [|d x].
    + simpl app. now rewrite step3_before_other.
    + change ((a :: d :: x) ++ c :: y) with (a :: d :: (x ++ c :: y)).
      change (Spec.step3_collapse (a :: d :: (x ++ c :: y)))
        with (if Re.is_hyphen a && Re.is_hyphen d
              then Spec.step3_collapse ((d :: x) ++ c :: y)
              else a :: Spec.step3_collapse ((d :: x) ++ c :: y)).
      change (Spec.step3_collapse (a :: d :: x))
        with (if Re.is_hyphen a && Re.is_hyphen d then Spec.step3_collapse (d :: x)
              else a :: Spec.step3_collapse (d :: x)).
      rewrite IH. now destruct (Re.is_hyphen a && Re.is_hyphen d).
Qed.

Lemma split_app_sep (sep : ascii) (x y : str) :
  Py.split sep (x ++ sep :: y) = Py.split sep x ++ Py.split sep y.
Proof.
  induction x as [|a x IH].
  - simpl. now rewrite Ascii.eqb_refl.
  - destruct (Ascii.eqb a sep) eqn:Ha.
    + simpl. rewrite Ha, IH. reflexivity.
    + destruct (split_cons_other sep a x Ha) as (part & parts & E & E').
      rewrite E'. simpl app at 1. simpl Py.split. rewrite Ha, IH, E. reflexivity.
Qed.

Lemma join_app (sep : ascii) (l1 l2 : list str) :
  l1 <> [] -> l2 <> [] ->
  Py.join [sep] (l1 ++ l2) = Py.join [sep] l1 ++ sep :: Py.join [sep] l2.
Proof.
  intros H1 H2. induction l1 as [|p l1 IH]; [now elim H1|].
  destruct l1 as [|q l1].
  - destruct l2 as [|r l2]; [now elim H2|]. reflexivity.
  - change (Py.join [sep] ((p :: q :: l1) ++ l2))
      with (p ++ sep :: Py.join [sep] ((q :: l1) ++ l2)).
    rewrite IH by discriminate.
    change (Py.join [sep] (p :: q :: l1)) with (p ++ sep :: Py.join [sep] (q :: l1)).
    now rewrite <- app_assoc.
Qed.

Lemma spec_sanitize_app_slash (a b : str) :
  Spec.sanitize (a ++ slash :: b) = Spec.sanitize a ++ slash :: Spec.sanitize b.
Proof.
  unfold Spec.sanitize, Spec.step6_rejoin, Spec.step2_hyphenate, Spec.step1_lowercase.
  rewrite !map_app. cbn [map].
  change (Py.lower_char slash) with slash.
  change (if Ascii.eqb slash space || Ascii.eqb slash underscore then hyphen else slash)
    with slash.
  rewrite step3_app_sep by reflexivity.
  rewrite split_app_sep, map_app.
  apply join_app; intro E; apply map_eq_nil in E; now apply split_not_nil in E.
Qed.

(** X1. The sanitizer cleans each path component on its own and keeps the
    directory structure: the slug of [a/b] is the slug of [a], a slash and
    the slug of [b], and the slug of a path is the join of the slugs of its
    components. *)
Theorem sanitize_componentwise :
  (forall a b : str,
     sanitize_for_myst_url (a ++ slash :: b)
     = sanitize_for_myst_url a ++ slash :: sanitize_for_myst_url b) /\
  (forall path : str,
     sanitize_for_myst_url path
     = Py.join (lit "/") (map sanitize_for_myst_url (Py.split slash path))).
Proof.
  assert (H : forall a b : str,
             sanitize_for_myst_url (a ++ slash :: b)
             = sanitize_for_myst_url a ++ slash :: sanitize_for_myst_url b).
  { intros a b. rewrite !sanitize_is_spec. apply spec_sanitize_app_slash. }
  split; [exact H|].
  intro path. change (lit "/") with [slash].
  rewrite <- (join_split slash path) at 1.
  pose proof (split_no_sep slash path) as Hns.
  pose proof (split_not_nil slash path) as Hne.
  induction (Py.split slash path) as [|p parts IH]; [now elim Hne|].
  inversion Hns as [|? ? Hp Hparts]; subst.
  destruct parts as [|q parts]; [reflexivity|].
  change (Py.join [slash] (p :: q :: parts))
    with (p ++ slash :: Py.join [slash] (q :: parts)).
  rewrite H, IH by (assumption || discriminate). reflexivity.
Qed.

(** ** Fixed points, length *)

Lemma length_dropwhile (p : ascii -> bool) (s : str) :
  length (Py.dropwhile p s) <= length s.
Proof.
  induction s as [|c s IH]; [reflexivity|].
  simpl. destruct (p c); simpl; lia.
Qed.

Lemma length_step45 (component : str) :
  length (Spec.step5_strip_hyphens (Spec.step4_strip_ordinal component))
  <= length component.
Proof.
  unfold Spec.step5_strip_hyphens, Spec.step4_strip_ordinal.
  rewrite length_rev.
  eapply Nat.le_trans; [apply length_dropwhile|]. rewrite length_rev.
  eapply Nat.le_trans; apply length_dropwhile.
Qed.

Lemma length_step3 (s : str) : length (Spec.step3_collapse s) <= length s.
Proof.
  induction s as [|c s IH]; [reflexivity|].
  destruct s as [|d s]; [reflexivity|].
  change (Spec.step3_collapse (c :: d :: s))
    with (if Re.is_hyphen c && Re.is_hyphen d then Spec.step3_collapse (d :: s)
          else c :: Spec.step3_collapse (d :: s)).
  destruct (Re.is_hyphen c && Re.is_hyphen d); cbn [length] in *; lia.
Qed.

Lemma length_join_map (sep : ascii) (f : str -> str) (parts : list str) :
  (forall p, length (f p) <= length p) ->
  length (Py.join [sep] (map f parts)) <= length (Py.join [sep] parts).
Proof.
  intro Hf. induction parts as [|p parts IH]; [reflexivity|].
  destruct parts as [|q parts]; [apply Hf|].
  change (Py.join [sep] (map f (p :: q :: parts)))
    with (f p ++ sep :: Py.join [sep] (map f (q :: parts))).
  change (Py.join [sep] (p :: q :: parts))
    with (p ++ sep :: Py.join [sep] (q :: parts)).
  rewrite !length_app. cbn [length]. specialize (Hf p). lia.
Qed.

(** ** Names the sanitizer does not tell apart *)

Lemma spec_sanitize_ext (s t : str) :
  Spec.step2_hyphenate (Spec.step1_lowercase s)
  = Spec.step2_hyphenate (Spec.step1_lowercase t) ->
  sanitize_for_myst_url s = sanitize_for_myst_url t.
Proof. intro H. rewrite !sanitize_is_spec. unfold Spec.sanitize. now rewrite H. Qed.

Lemma sanitize_after_map (g : ascii -> ascii) (s : str) :
  (forall c,
     (if Ascii.eqb (Py.lower_char (g c)) space || Ascii.eqb (Py.lower_char (g c)) underscore
      then hyphen else Py.lower_char (g c))
     = (if Ascii.eqb (Py.lower_char c) space || Ascii.eqb (Py.lower_char c) underscore
        then hyphen else Py.lower_char c)) ->
  sanitize_for_myst_url (map g s) = sanitize_for_myst_url s.
Proof.
  intro Hg. apply spec_sanitize_ext.
  unfold Spec.step2_hyphenate, Spec.step1_lowercase. rewrite !map_map.
  apply map_ext. exact Hg.
Qed.

(** X4. The slug does not depend on the case of the letters nor on the
    choice among space, underscore and hyphen: lowering the path, or
    replacing underscores by spaces, spaces by hyphens or underscores by
    hyphens, before sanitizing gives the same slug. *)
Theorem sanitize_insensitive (path : str) :
  sanitize_for_myst_url (Py.lower path) = sanitize_for_myst_url path /\
  sanitize_for_myst_url (Py.replace (lit "_") (lit " ") path) = sanitize_for_myst_url path /\
  sanitize_for_myst_url (Py.replace (lit " ") (lit "-") path) = sanitize_for_myst_url path /\
  sanitize_for_myst_url (Py.replace (lit "_") (lit "-") path) = sanitize_for_myst_url path.
Proof.
  change (lit "_") with [underscore]. change (lit " ") with [space].
  change (lit "-") with [hyphen]. rewrite !replace_char. unfold Py.lower.
  repeat split; apply sanitize_after_map; intro c; each_char c; reflexivity.
Qed.

(** ** Ordinal prefixes *)

Lemma step3_cons_cases (c : ascii) (r : str) :
  Spec.step3_collapse (c :: r) = Spec.step3_collapse r \/
  Spec.step3_collapse (c :: r) = c :: Spec.step3_collapse r.
Proof.
  destruct r as [|d r]; [now right|].
  change (Spec.step3_collapse (c :: d :: r))
    with (if Re.is_hyphen c && Re.is_hyphen d then Spec.step3_collapse (d :: r)
          else c :: Spec.step3_collapse (d :: r)).
  destruct (Re.is_hyphen c && Re.is_hyphen d); [now left | now right].
Qed.

Lemma step3_skip_prefix (d t : str) :
  forallb Re.digit_or_hyphen d = true ->
  exists e e' w,
    Spec.step3_collapse (d ++ t) = e ++ w /\ Spec.step3_collapse t = e' ++ w /\
    forallb Re.digit_or_hyphen e = true /\ forallb Re.digit_or_hyphen e' = true.
Proof.
  induction d as [|c d IH]; intro H.
  - exists [], [], (Spec.step3_collapse t). now repeat split.
  - simpl in H. apply andb_true_iff in H as [Hc H].
    destruct (IH H) as (e & e' & w & E & E' & He & He').
    simpl app. destruct (step3_cons_cases c (d ++ t)) as [-> | ->]; rewrite E.
    + exists e, e', w. now repeat split.
    + exists (c :: e), e', w. repeat split; try assumption.
      simpl. now rewrite Hc, He.
Qed.

Lemma split_prefix (sep : ascii) (e w : str) :
  no_sep sep e ->
  exists p ps, Py.split sep w = p :: ps /\ Py.split sep (e ++ w) = (e ++ p) :: ps.
Proof.
  unfold no_sep. induction e as [|c e IH]; intro H.
  - destruct (Py.split sep w) as [|p ps] eqn:E; [now apply split_not_nil in E|].
    now exists p, ps.
  - simpl in H. apply andb_true_iff in H as [Hc H]. apply negb_true_iff in Hc.
    destruct (IH H) as (p & ps & E & E'). exists p, ps. split; [exact E|].
    simpl. now rewrite Hc, E'.
Qed.

Lemma dropwhile_all (p : ascii -> bool) (s : str) :
  forallb p s = true <-> Py.dropwhile p s = [].
Proof.
  induction s as [|c s IH]; [now split|].
  simpl. destruct (p c); [exact IH | split; discriminate].
Qed.

Lemma step45_prefix (e p : str) :
  forallb Re.digit_or_hyphen e = true ->
  Spec.step5_strip_hyphens (Spec.step4_strip_ordinal (e ++ p))
  = Spec.step5_strip_hyphens (Spec.step4_strip_ordinal p).
Proof.
  intro H. unfold Spec.step4_strip_ordinal.
  rewrite dropwhile_app. apply dropwhile_all in H. now rewrite H.
Qed.

Lemma digit_or_hyphen_no_slash (e : str) :
  forallb Re.digit_or_hyphen e = true -> no_sep slash e.
Proof.
  unfold no_sep. rewrite !forallb_forall. intros H c Hc. specialize (H c Hc).
  revert H. clear. each_char c; intro H; try reflexivity; discriminate H.
Qed.

Lemma ordinal_char_hyphenated (c : ascii) :
  ordinal_char c =
  Re.digit_or_hyphen
    (if Ascii.eqb (Py.lower_char c) space || Ascii.eqb (Py.lower_char c) underscore
     then hyphen else Py.lower_char c).
Proof. each_char c; reflexivity. Qed.

Lemma forallb_ordinal (s : str) :
  forallb ordinal_char s
  = forallb Re.digit_or_hyphen (Spec.step2_hyphenate (Spec.step1_lowercase s)).
Proof.
  unfold Spec.step2_hyphenate, Spec.step1_lowercase. rewrite map_map.
  induction s as [|c s IH]; [reflexivity|].
  simpl. now rewrite IH, ordinal_char_hyphenated.
Qed.

Lemma sanitize_skip_prefix (d s : str) :
  forallb ordinal_char d = true ->
  sanitize_for_myst_url (d ++ s) = sanitize_for_myst_url s.
Proof.
  intro H. rewrite forallb_ordinal in H.
  rewrite !sanitize_is_spec. unfold Spec.sanitize, Spec.step6_rejoin. f_equal.
  assert (E : Spec.step2_hyphenate (Spec.step1_lowercase (d ++ s))
              = Spec.step2_hyphenate (Spec.step1_lowercase d)
                ++ Spec.step2_hyphenate (Spec.step1_lowercase s)).
  { unfold Spec.step2_hyphenate, Spec.step1_lowercase. now rewrite !map_app. }
  rewrite E.
  destruct (step3_skip_prefix _ (Spec.step2_hyphenate (Spec.step1_lowercase s)) H)
    as (e & e' & w & -> & -> & He & He').
  destruct (split_prefix slash e w (digit_or_hyphen_no_slash e He))
    as (p & ps & Ep & ->).
  destruct (split_prefix slash e' w (digit_or_hyphen_no_slash e' He'))
    as (p' & ps' & Ep' & ->).
  rewrite Ep in Ep'. injection Ep' as <- <-.
  cbn [map]. now rewrite !step45_prefix.
Qed.

(** X5. Leading digits, hyphens, spaces and underscores of a path do not
    show in its slug: a path and the same path behind such a prefix get the
    same slug. *)
Theorem sanitize_ordinal_prefix (prefix path : str) :
  forallb ordinal_char prefix = true ->
  sanitize_for_myst_url (prefix ++ path) = sanitize_for_myst_url path.
Proof. apply sanitize_skip_prefix. Qed.

Lemma sanitize_ordinal_prefix_witness :
  forallb ordinal_char (lit "01_-") = true /\
  sanitize_for_myst_url (lit "01_-" ++ lit "Intro/02 Setup")
  = sanitize_for_myst_url (lit "Intro/02 Setup").
Proof.
  split; [reflexivity|].
  apply (sanitize_ordinal_prefix (lit "01_-") (lit "Intro/02 Setup")). reflexivity.
Defined.

(** ** The empty slug *)

Lemma step3_keeps (s : str) : incl s (Spec.step3_collapse s).
Proof.
  induction s as [|c s IH]; [apply incl_refl|].
  destruct s as [|d s]; [apply incl_refl|].
  change (Spec.step3_collapse (c :: d :: s))
    with (if Re.is_hyphen c && Re.is_hyphen d then Spec.step3_collapse (d :: s)
          else c :: Spec.step3_collapse (d :: s)).
  destruct (Re.is_hyphen c && Re.is_hyphen d) eqn:E.
  - apply andb_true_iff in E as [Hc Hd]. apply is_hyphen_true in Hc, Hd. subst.
    intros x [<-|Hx]; apply IH; [now left | exact Hx].
  - intros x [<-|Hx]; [now left | right; now apply IH].
Qed.

Lemma step45_nil (component : str) :
  Spec.step5_strip_hyphens (Spec.step4_strip_ordinal component) = [] ->
  forallb Re.digit_or_hyphen component = true.
Proof.
  unfold Spec.step5_strip_hyphens, Spec.step4_strip_ordinal. intro H.
  apply dropwhile_all.
  pose proof (dropwhile_head Re.digit_or_hyphen component) as Hh.
  destruct (Py.dropwhile Re.digit_or_hyphen component) as [|c r]; [reflexivity|].
  pose proof (is_hyphen_digit_or_hyphen c Hh) as Hc.
  rewrite (dropwhile_id _ c r Hc) in H.
  fold (Py.rstrip Re.is_hyphen (c :: r)) in H.
  rewrite (rstrip_keeps_head _ c r Hc) in H. discriminate.
Qed.

(** X6. The slug is empty exactly when the path is made of digits, hyphens,
    spaces and underscores only (the empty path among them). *)
Theorem sanitize_empty_iff (path : str) :
  sanitize_for_myst_url path = [] <-> forallb ordinal_char path = true.
Proof.
  split.
  - rewrite sanitize_is_spec, forallb_ordinal.
    unfold Spec.sanitize, Spec.step6_rejoin.
    set (x := Spec.step2_hyphenate (Spec.step1_lowercase path)).
    intro H. rewrite forallb_forall. intros c Hc.
    apply step3_keeps in Hc. rewrite <- (join_split slash (Spec.step3_collapse x)) in Hc.
    destruct (Py.split slash (Spec.step3_collapse x)) as [|p [|q ps]] eqn:E.
    + now apply split_not_nil in E.
    + simpl in H, Hc. apply step45_nil in H. rewrite forallb_forall in H. now apply H.
    + change (map (fun c => Spec.step5_strip_hyphens (Spec.step4_strip_ordinal c))
                (p :: q :: ps))
        with (Spec.step5_strip_hyphens (Spec.step4_strip_ordinal p)
              :: map (fun c => Spec.step5_strip_hyphens (Spec.step4_strip_ordinal c))
                   (q :: ps)) in H.
      remember (map _ (q :: ps)) as rest eqn:Er.
      destruct rest as [|r rest]; [discriminate Er|].
      change (Py.join [slash] (Spec.step5_strip_hyphens (Spec.step4_strip_ordinal p)
                               :: r :: rest))
        with (Spec.step5_strip_hyphens (Spec.step4_strip_ordinal p)
              ++ slash :: Py.join [slash] (r :: rest)) in H.
      now apply app_eq_nil in H as [_ H].
  - intro H. rewrite <- (app_nil_r path). now rewrite sanitize_skip_prefix.
Qed.

(** * Further properties of the emitter's inputs *)

(** ** Extensions *)

Lemma replace_after_no_dot (old new s t : str) :
  ~ In dot s ->
  Py.replace (dot :: old) new (s ++ t) = s ++ Py.replace (dot :: old) new t.
Proof.
  unfold Py.replace. induction s as [|c s IH]; intro H; [reflexivity|].
  assert (Hc : Ascii.eqb dot c = false).
  { apply Ascii.eqb_neq. intros <-. apply H. now left. }
  simpl app. cbn [Py.replace_from Py.startswith]. rewrite Hc. cbn [andb].
  rewrite IH; [reflexivity|]. intro Hin. apply H. now right.
Qed.

(** X7. For a name without a dot, the old URL of [name.md] and of
    [name.ipynb] is [name.html] and the path without its extension is
    [name]; a name without a dot is left as it is, so that the old URL of a
    file without extension does not end with [.html]. *)
Theorem extension_of_dot_free_name (name : str) :
  ~ In dot name ->
  old_url (name ++ lit ".md") = name ++ lit ".html" /\
  old_url (name ++ lit ".ipynb") = name ++ lit ".html" /\
  extensionless (name ++ lit ".md") = name /\
  extensionless (name ++ lit ".ipynb") = name /\
  old_url name = name /\
  extensionless name = name.
Proof.
  intro H. unfold old_url, extensionless.
  change (lit ".md") with (dot :: lit "md").
  change (lit ".ipynb") with (dot :: lit "ipynb").
  assert (E : forall old new, Py.replace (dot :: old) new name = name).
  { intros old new. rewrite <- (app_nil_r name) at 1.
    rewrite replace_after_no_dot by exact H. apply app_nil_r. }
  repeat split.
  - rewrite replace_after_no_dot by exact H.
    change (Py.replace (dot :: lit "md") (lit ".html") (dot :: lit "md")) with (lit ".html").
    rewrite replace_after_no_dot by exact H. reflexivity.
  - rewrite replace_after_no_dot by exact H.
    change (Py.replace (dot :: lit "md") (lit ".html") (dot :: lit "ipynb"))
      with (dot :: lit "ipynb").
    rewrite replace_after_no_dot by exact H. reflexivity.
  - rewrite replace_after_no_dot by exact H.
    change (Py.replace (dot :: lit "md") (lit "") (dot :: lit "md")) with (@nil ascii).
    rewrite app_nil_r. apply E.
  - rewrite replace_after_no_dot by exact H.
    change (Py.replace (dot :: lit "md") (lit "") (dot :: lit "ipynb"))
      with (dot :: lit "ipynb").
    rewrite replace_after_no_dot by exact H.
    change (Py.replace (dot :: lit "ipynb") (lit "") (dot :: lit "ipynb")) with (@nil ascii).
    apply app_nil_r.
  - now rewrite !E.
  - now rewrite !E.
Qed.

Lemma extension_of_dot_free_name_witness :
  ~ In dot (lit "content/01-intro") /\
  old_url (lit "content/01-intro" ++ lit ".md") = lit "content/01-intro" ++ lit ".html".
Proof.
  split.
  - intro H. vm_compute in H. repeat (destruct H as [H|H]; [discriminate H|]). exact H.
  - apply (extension_of_dot_free_name (lit "content/01-intro")).
    intro H. vm_compute in H. repeat (destruct H as [H|H]; [discriminate H|]). exact H.
Defined.

(** ** [flatten_toc] on any loaded value *)

Lemma existsb_find {A : Type} (f : A -> bool) (l : list A) :
  existsb f l = match find f l with Some _ => true | None => false end.
Proof. induction l as [|x l IH]; [reflexivity|]. simpl. now destruct (f x). Qed.

Lemma flatten_item_acc (f : yaml -> result (list yaml)) (files : list yaml) (item : yaml) :
  flatten_item f files item = (r <- flatten_item f [] item ;; ret (files ++ r)).
Proof.
  unfold flatten_item.
  destruct (Dyn.contains (lit "file") item) as [[]|]; simpl; try reflexivity.
  - destruct (Dyn.getitem item (lit "file")) as [file|]; simpl; try reflexivity.
    destruct (Dyn.contains (lit "children") item) as [[]|]; simpl; try reflexivity.
    destruct (Dyn.getitem item (lit "children")) as [children|]; simpl; try reflexivity.
    destruct (f children); simpl; try reflexivity. now rewrite <- app_assoc.
  - destruct (Dyn.contains (lit "children") item) as [[]|]; simpl; try reflexivity.
    + destruct (Dyn.getitem item (lit "children")) as [children|]; simpl; try reflexivity.
      destruct (f children); reflexivity.
    + now rewrite app_nil_r.
Qed.

Lemma for_each_acc (f : yaml -> result (list yaml)) (l : list yaml) (files : list yaml) :
  for_each l files (flatten_item f)
  = (r <- for_each l [] (flatten_item f) ;; ret (files ++ r)).
Proof.
  revert files. induction l as [|x l IH]; intro files.
  - cbn. now rewrite app_nil_r.
  - cbn [for_each]. rewrite (flatten_item_acc f files x).
    destruct (flatten_item f [] x) as [r|]; [|reflexivity].
    cbn [bind result_monad ret]. rewrite (IH (files ++ r)), (IH r).
    destruct (for_each l [] (flatten_item f)); [|reflexivity].
    cbn. now rewrite app_assoc.
Qed.

Lemma for_each_app {A S : Type} (a b : list A) (vars : S) (f : S -> A -> result S) :
  for_each (a ++ b) vars f = (vars' <- for_each a vars f ;; for_each b vars' f).
Proof.
  revert vars. induction a as [|x a IH]; intro vars; [reflexivity|].
  cbn [app for_each bind result_monad]. destruct (f vars x); [apply IH | reflexivity].
Qed.

(** X8. An entry that is a mapping contributes its [file], when it has
    one, then the files of its [children], when it has some, then come the
    files of the entries after it; the other keys of the entry and the order
    of its keys play no part. *)
Theorem flatten_toc_cons_dict (entries : list (yaml * yaml)) (rest : list yaml) :
  flatten_toc (YList (YDict entries :: rest)) =
  (children_files <- match lookup (lit "children") entries with
                     | Some children => flatten_toc children
                     | None => Ok []
                     end ;;
   rest_files <- flatten_toc (YList rest) ;;
   ret (optional (lookup (lit "file") entries) ++ children_files ++ rest_files)).
Proof.
  rewrite (flatten_toc_eq (YList (YDict entries :: rest))), (flatten_toc_eq (YList rest)).
  cbn [Dyn.iter bind result_monad for_each].
  unfold flatten_item at 1, lookup. cbn [Dyn.contains Dyn.getitem bind result_monad ret].
  rewrite !existsb_find.
  destruct (find _ entries) as [file|]; cbn [option_map optional bind result_monad ret app];
    destruct (find _ entries) as [children|]; cbn [option_map bind result_monad ret].
  - destruct (flatten_toc (snd children)) as [sub|]; [|reflexivity].
    cbn [bind result_monad ret]. rewrite for_each_acc.
    now destruct (for_each rest [] (flatten_item flatten_toc)).
  - rewrite for_each_acc. now destruct (for_each rest [] (flatten_item flatten_toc)).
  - destruct (flatten_toc (snd children)) as [sub|]; [|reflexivity].
    cbn [bind result_monad ret]. rewrite for_each_acc.
    now destruct (for_each rest [] (flatten_item flatten_toc)).
  - now destruct (for_each rest [] (flatten_item flatten_toc)).
Qed.

(** X9. Flattening a list of entries is flattening its parts in order: the
    files of [a + b] are the files of [a] followed by the files of [b], and
    an exception of [a] comes before one of [b]. *)
Theorem flatten_toc_app (a b : list yaml) :
  flatten_toc (YList (a ++ b)) =
  (files_a <- flatten_toc (YList a) ;;
   files_b <- flatten_toc (YList b) ;;
   ret (files_a ++ files_b)).
Proof.
  rewrite !flatten_toc_eq. cbn [Dyn.iter bind result_monad].
  rewrite for_each_app. cbn [bind result_monad].
  destruct (for_each a [] (flatten_item flatten_toc)) as [files_a|]; [|reflexivity].
  apply for_each_acc.
Qed.

(** ** What [flatten_toc] and [load_myst_toc] raise *)

Lemma contains_type_error (key : str) (v : yaml) (e : exn) :
  Dyn.contains key v = Raise e -> e = TypeError.
Proof. destruct v; simpl; now intros [= <-]. Qed.

Lemma iter_type_error (v : yaml) (e : exn) : Dyn.iter v = Raise e -> e = TypeError.
Proof. destruct v; simpl; now intros [= <-]. Qed.

(** A key that is [in] a value is never missing from it. *)
Lemma getitem_after_contains (key : str) (item : yaml) (e : exn) :
  Dyn.contains key item = Ok true -> Dyn.getitem item key = Raise e -> e = TypeError.
Proof.
  destruct item; simpl; try (now intros _ [= <-]).
  rewrite existsb_find. destruct (find _ entries); [discriminate 2 | discriminate 1].
Qed.

Lemma flatten_item_type_error (f : yaml -> result (list yaml)) (files : list yaml)
    (item : yaml) (e : exn) :
  (forall children e', depth children < depth item ->
                       f children = Raise e' -> e' = TypeError) ->
  flatten_item f files item = Raise e -> e = TypeError.
Proof.
  intro H. unfold flatten_item.
  destruct (Dyn.contains (lit "file") item) as [has_file|e1] eqn:E1; simpl;
    [|intros [= <-]; exact (contains_type_error _ _ _ E1)].
  assert (H2 : forall e2,
             (if has_file
              then file <- Dyn.getitem item (lit "file") ;; ret (files ++ [file])
              else ret files) = Raise e2 -> e2 = TypeError).
  { intro e2. destruct has_file; [|discriminate].
    destruct (Dyn.getitem item (lit "file")) eqn:G; simpl; [discriminate|].
    intros [= <-]. exact (getitem_after_contains _ _ _ E1 G). }
  destruct (if has_file then _ else _) as [files'|e2]; simpl;
    [|intros [= <-]; now apply H2].
  destruct (Dyn.contains (lit "children") item) as [[]|e3] eqn:E3; simpl;
    [|discriminate|intros [= <-]; exact (contains_type_error _ _ _ E3)].
  destruct (Dyn.getitem item (lit "children")) as [children|e4] eqn:E4; simpl;
    [|intros [= <-]; exact (getitem_after_contains _ _ _ E3 E4)].
  apply depth_getitem in E4.
  destruct (f children) as [sub|e5] eqn:E5; simpl; [discriminate|].
  intros [= <-]. exact (H children e5 E4 E5).
Qed.

Lemma flatten_toc_type_error (toc : yaml) (e : exn) :
  flatten_toc toc = Raise e -> e = TypeError.
Proof.
  remember (S (depth toc)) as d eqn:Hd.
  assert (H : depth toc < d) by lia. clear Hd. revert toc e H.
  induction d as [|d IH]; intros toc e H; [lia|].
  rewrite flatten_toc_eq.
  destruct (Dyn.iter toc) as [items|e1] eqn:E; simpl;
    [|intros [= <-]; exact (iter_type_error _ _ E)].
  apply (for_each_raises items _ (fun e => e = TypeError)). intros item Hitem files e'.
  apply flatten_item_type_error. intros children e'' Hc.
  pose proof (depth_iter toc items item E Hitem).
  apply IH. lia.
Qed.

(** X11. [load_myst_toc] raises [FileNotFoundError] exactly when the path
    of the configuration does not exist, whatever the other files hold. *)
Theorem load_myst_toc_file_not_found_exactly (fs : filesystem) (p : str) :
  (exists msg, load_myst_toc fs p = Raise (FileNotFoundError msg)) <-> fs p = None.
Proof. apply load_myst_toc_not_found_iff. Qed.

Lemma load_myst_toc_structure (fs : filesystem) (p : str) (config : yaml) :
  fs p = Some (Some config) ->
  mapping_config config = true ->
  load_myst_toc fs p = Raise (KeyError structure_message)
  <-> has_project_toc config = false.
Proof.
  intros H Hm. unfold load_myst_toc, path_exists, safe_load. rewrite H.
  destruct config as [| | | | |entries]; try discriminate Hm.
  unfold mapping_config, lookup in Hm. unfold has_project_toc.
  cbn [negb bind ret result_monad Dyn.contains Dyn.getitem].
  rewrite existsb_find.
  destruct (find _ entries) as [[k project]|];
    [|cbn; split; reflexivity].
  cbn [option_map snd] in Hm.
  destruct project as [| | | | |project]; try discriminate Hm.
  cbn [negb bind ret result_monad Dyn.contains Dyn.getitem snd].
  rewrite existsb_find.
  destruct (find _ project) as [kv|]; [|cbn; split; reflexivity].
  cbn [negb bind ret result_monad]. split; [|discriminate].
  intro F. apply flatten_toc_type_error in F. discriminate F.
Qed.

(** X12. On a configuration that is a mapping whose [project], if any, is
    a mapping, [load_myst_toc] raises the [KeyError] of the structure
    exactly when [project] or its [toc] is missing. *)
Theorem load_myst_toc_structure_error_iff (fs : filesystem) (p : str) (config : yaml) :
  fs p = Some (Some config) ->
  mapping_config config = true ->
  load_myst_toc fs p = Raise (KeyError structure_message)
  <-> has_project_toc config = false.
Proof. apply load_myst_toc_structure. Qed.

Lemma load_myst_toc_structure_error_iff_witness :
  single_file (lit "myst.yml") (YDict [(YStr (lit "project"), YDict [])]) (lit "myst.yml")
  = Some (Some (YDict [(YStr (lit "project"), YDict [])])) /\
  mapping_config (YDict [(YStr (lit "project"), YDict [])]) = true /\
  load_myst_toc
    (single_file (lit "myst.yml") (YDict [(YStr (lit "project"), YDict [])]))
    (lit "myst.yml")
  = Raise (KeyError structure_message).
Proof.
  split; [reflexivity|]. split; [reflexivity|].
  apply (load_myst_toc_structure_error_iff
           (single_file (lit "myst.yml") (YDict [(YStr (lit "project"), YDict [])]))
           (lit "myst.yml") (YDict [(YStr (lit "project"), YDict [])]));
    reflexivity.
Defined.

(** * Further properties of [generate_redirects] *)

Lemma for_each_io_app {A S : Type} (a b : list A) (vars : S) (f : S -> A -> io S) :
  for_each (a ++ b) vars f =
  match for_each a vars f with
  | (t, Ok vars') => let (t', r) := for_each b vars' f in (t ++ t', r)
  | (t, Raise e) => (t, Raise e)
  end.
Proof.
  revert vars. induction a as [|x a IH]; intro vars.
  - cbn. now destruct (for_each b vars f).
  - cbn [app for_each bind io_monad].
    destruct (f vars x) as [t [vars'|e]]; [|reflexivity].
    rewrite IH. destruct (for_each a vars' f) as [t1 [vars''|e]]; [|reflexivity].
    destruct (for_each b vars'' f) as [t2 r]. now rewrite app_assoc.
Qed.

(** X15. The slash at the end of the base URL is optional: a run with the
    base URL and a run with the base URL completed by a slash when it lacks
    one do the same. *)
Theorem generate_redirects_trailing_slash (fs : filesystem) (base_url : str)
    (output_root : path) (myst_config_path : str) :
  generate_redirects fs
    (if Py.endswith (lit "/") base_url then base_url else base_url ++ lit "/")
    output_root myst_config_path
  = generate_redirects fs base_url output_root myst_config_path.
Proof.
  fold (normalized base_url). unfold generate_redirects.
  rewrite endswith_normalized. cbn [negb].
  assert (E : (if negb (Py.endswith (lit "/") base_url)
               then base_url ++ lit "/" else base_url) = normalized base_url).
  { unfold normalized. now destruct (Py.endswith (lit "/") base_url). }
  rewrite E. reflexivity.
Qed.

Lemma startswith_app (a b : str) : Py.startswith a (a ++ b) = true.
Proof.
  induction a as [|c a IH]; [reflexivity|].
  simpl. now rewrite Ascii.eqb_refl, IH.
Qed.

Lemma endswith_slash_app (a : str) : Py.endswith (lit "/") (a ++ lit "/") = true.
Proof. unfold Py.endswith. rewrite rev_app_distr. reflexivity. Qed.

Lemma new_url_for_shape (base index_slug file_path : str) :
  Py.endswith (lit "/") base = true ->
  Py.startswith base (new_url_for base index_slug file_path) = true /\
  Py.endswith (lit "/") (new_url_for base index_slug file_path) = true.
Proof.
  intro H. unfold new_url_for.
  destruct (str_eqb (slug_of file_path) index_slug).
  - split; [|exact H]. rewrite <- (app_nil_r base) at 2. apply startswith_app.
  - split; [apply startswith_app|]. rewrite app_assoc. apply endswith_slash_app.
Qed.

(** X16. Every page written by [generate_redirects] redirects to a URL
    that starts with the base URL (completed by its slash) and ends with a
    slash. *)
Theorem generate_redirects_targets (fs : filesystem) (base_url : str)
    (output_root : path) (myst_config_path : str) (file_paths : list str) :
  load_myst_toc fs myst_config_path = Ok (map YStr file_paths) ->
  Forall
    (fun file_text =>
       exists new_url,
         snd file_text = redirect_html new_url /\
         Py.startswith
           (if Py.endswith (lit "/") base_url then base_url else base_url ++ lit "/")
           new_url = true /\
         Py.endswith (lit "/") new_url = true)
    (written (fst (generate_redirects fs base_url output_root myst_config_path))).
Proof.
  intro Hload. rewrite (generate_redirects_run _ _ _ _ _ Hload).
  destruct file_paths as [|index_file_path rest]; [constructor|].
  cbn [fst]. rewrite written_redirects. apply Forall_map, Forall_forall.
  intros p _. eexists. split; [reflexivity|].
  apply new_url_for_shape, endswith_normalized.
Qed.

Lemma generate_redirects_targets_witness :
  load_myst_toc Scenario.fs (lit "myst.yml") = Ok (map YStr Scenario.file_paths) /\
  Forall
    (fun file_text =>
       exists new_url,
         snd file_text = redirect_html new_url /\
         Py.startswith
           (if Py.endswith (lit "/") (lit "https://example.com")
            then lit "https://example.com" else lit "https://example.com" ++ lit "/")
           new_url = true /\
         Py.endswith (lit "/") new_url = true)
    (written (fst (generate_redirects Scenario.fs (lit "https://example.com")
                     Scenario.output_root (lit "myst.yml")))).
Proof.
  split; [reflexivity|].
  apply (generate_redirects_targets Scenario.fs (lit "https://example.com")
           Scenario.output_root (lit "myst.yml") Scenario.file_paths).
  reflexivity.
Defined.

(** * [discover_myst_config] and [main] *)

(** X19. A configuration that [discover_myst_config] returns exists, it
    is [myst.yml], or [docs/myst.yml] when there is no [myst.yml], and
    [load_myst_toc] does not raise [FileNotFoundError] on it. *)
Theorem discover_myst_config_found (fs : filesystem) (p : str) :
  discover_myst_config fs = Ok p ->
  path_exists fs p = true /\
  (p = lit "myst.yml" \/
   p = lit "docs/myst.yml" /\ path_exists fs (lit "myst.yml") = false) /\
  forall msg, load_myst_toc fs p <> Raise (FileNotFoundError msg).
Proof.
  unfold discover_myst_config, common_locations. cbn [find].
  intro H.
  assert (G : path_exists fs p = true /\
              (p = lit "myst.yml" \/
               p = lit "docs/myst.yml" /\ path_exists fs (lit "myst.yml") = false)).
  { destruct (path_exists fs (lit "myst.yml")) eqn:E1.
    - injection H as <-. split; [exact E1 | now left].
    - destruct (path_exists fs (lit "docs/myst.yml")) eqn:E2; [|discriminate H].
      injection H as <-. split; [exact E2 | now right]. }
  destruct G as [Hex Hp]. repeat split; try assumption.
  intros msg F.
  assert (Hnone : fs p = None)
    by (apply load_myst_toc_not_found_iff; now exists msg).
  unfold path_exists in Hex. rewrite Hnone in Hex. discriminate Hex.
Qed.

Lemma discover_myst_config_found_witness :
  discover_myst_config (single_file (lit "docs/myst.yml") YNone) = Ok (lit "docs/myst.yml") /\
  path_exists (single_file (lit "docs/myst.yml") YNone) (lit "docs/myst.yml") = true.
Proof.
  split; [reflexivity|].
  apply (discover_myst_config_found (single_file (lit "docs/myst.yml") YNone)
           (lit "docs/myst.yml")).
  reflexivity.
Defined.

Lemma written_app (a b : list event) : written (a ++ b) = written a ++ written b.
Proof.
  induction a as [|e a IH]; [reflexivity|].
  destruct e; simpl; now rewrite IH.
Qed.

Section MainProperties.

Variable message_of : exn -> str.
Variable path_text : path -> str.

(** X21. [main] writes the files that [generate_redirects] writes, those
    written before a failure among them, and none when no configuration is
    found. *)
Theorem main_written (fs : filesystem) (base_url : str) (output_dir : path)
    (myst_config : option str) :
  written (fst (main message_of path_text fs base_url output_dir myst_config)) =
  match resolved_config fs myst_config with
  | Raise _ => []
  | Ok p => written (fst (generate_redirects fs base_url output_dir p))
  end.
Proof.
  unfold main, resolved_config.
  destruct myst_config as [p|].
  - cbn [bind ret io_monad].
    destruct (generate_redirects fs base_url output_dir p) as [t [count|e]].
    + cbn. rewrite written_app. cbn [written]. apply app_nil_r.
    + destruct e; cbn; rewrite written_app; cbn [written]; apply app_nil_r.
  - unfold discover_myst_config.
    destruct (find (path_exists fs) common_locations) as [p|]; [|reflexivity].
    cbn [lift try_except emit bind ret io_monad app].
    destruct (generate_redirects fs base_url output_dir p) as [t [count|e]].
    + cbn. rewrite written_app. cbn [written]. apply app_nil_r.
    + destruct e; cbn; rewrite written_app; cbn [written]; apply app_nil_r.
Qed.

(** X22. Without [--myst-config] and with neither [myst.yml] nor
    [docs/myst.yml], [main] echoes one line to standard error that names
    the two locations, does nothing else and exits with code 1. *)
Theorem main_no_config (fs : filesystem) (base_url : str) (output_dir : path) :
  fs (lit "myst.yml") = None ->
  fs (lit "docs/myst.yml") = None ->
  main message_of path_text fs base_url output_dir None =
  ([Echo Stderr
      (lit "Error: Could not find myst.yml in common locations (./myst.yml, ./docs/myst.yml). " ++
       lit "Use --myst-config to specify the path explicitly.")],
   Ok (Exit 1)).
Proof.
  intros H1 H2. unfold main, discover_myst_config, common_locations, path_exists.
  cbn [find]. now rewrite H1, H2.
Qed.

(** X23. On a configuration that is a mapping without [project.toc],
    [main] writes nothing, echoes to standard error the message of the
    [KeyError] between double quotes, as [str] of a [KeyError] gives it,
    then the hint on the structure, and exits with code 1. *)
Theorem main_structure_error (fs : filesystem) (base_url : str) (output_dir : path)
    (p : str) (config : yaml) :
  fs p = Some (Some config) ->
  mapping_config config = true ->
  has_project_toc config = false ->
  main message_of path_text fs base_url output_dir (Some p) =
  ([Echo Stderr (lit "Error: " ++ dq ++ lit "MyST config must have 'project.toc' structure" ++ dq);
    Echo Stderr (lit "Make sure your myst.yml has a 'project.toc' structure")],
   Ok (Exit 1)).
Proof.
  intros H Hm Hs. apply (load_myst_toc_structure fs p config H Hm) in Hs.
  unfold main. cbn [bind ret io_monad]. unfold generate_redirects. rewrite Hs.
  reflexivity.
Qed.

(** X24. When the loader raises [TypeError], as it does on an empty
    configuration file, [main] reports an unexpected error, without the hint
    on the structure, and exits with code 1. *)
Theorem main_type_error (fs : filesystem) (base_url : str) (output_dir : path)
    (p : str) :
  load_myst_toc fs p = Raise TypeError ->
  main message_of path_text fs base_url output_dir (Some p) =
  ([Echo Stderr (lit "Unexpected error: " ++ message_of TypeError)], Ok (Exit 1)).
Proof.
  intro H. unfold main. cbn [bind ret io_monad]. unfold generate_redirects. rewrite H.
  reflexivity.
Qed.

(** X26. Discovery only adds a line: when [discover_myst_config] returns
    [p], [main] without [--myst-config] echoes [Using config: p] and goes on
    as [main] with [--myst-config p]. *)
Theorem main_discovered (fs : filesystem) (base_url : str) (output_dir : path)
    (p : str) :
  discover_myst_config fs = Ok p ->
  main message_of path_text fs base_url output_dir None =
  (Echo Stdout (lit "Using config: " ++ p)
     :: fst (main message_of path_text fs base_url output_dir (Some p)),
   snd (main message_of path_text fs base_url output_dir (Some p))).
Proof.
  intro H. unfold main. rewrite H.
  cbn [lift try_except emit bind ret io_monad app].
  destruct (generate_redirects fs base_url output_dir p) as [t [count|e]]; [reflexivity|].
  destruct e; reflexivity.
Qed.

End MainProperties.

Lemma main_no_config_witness :
  (fun _ : str => @None (option yaml)) (lit "myst.yml") = None /\
  snd (main (fun _ => []) (fun _ => []) (fun _ => None) Scenario.base_url
         Scenario.output_root None) = Ok (Exit 1).
Proof.
  split; [reflexivity|].
  rewrite (main_no_config (fun _ => []) (fun _ => []) (fun _ => None)
             Scenario.base_url Scenario.output_root);
    reflexivity.
Defined.

Lemma main_structure_error_witness :
  mapping_config (YDict []) = true /\
  has_project_toc (YDict []) = false /\
  snd (main (fun _ => []) (fun _ => []) (single_file (lit "myst.yml") (YDict []))
         Scenario.base_url Scenario.output_root (Some (lit "myst.yml")))
  = Ok (Exit 1).
Proof.
  split; [reflexivity|]. split; [reflexivity|].
  rewrite (main_structure_error (fun _ => []) (fun _ => [])
             (single_file (lit "myst.yml") (YDict []))
             Scenario.base_url Scenario.output_root (lit "myst.yml") (YDict []));
    reflexivity.
Defined.

Lemma main_type_error_witness :
  load_myst_toc (single_file (lit "myst.yml") YNone) (lit "myst.yml") = Raise TypeError /\
  main (fun _ => lit "argument of type 'NoneType' is not iterable") (fun _ => [])
    (single_file (lit "myst.yml") YNone) Scenario.base_url Scenario.output_root
    (Some (lit "myst.yml"))
  = ([Echo Stderr (lit "Unexpected error: argument of type 'NoneType' is not iterable")],
     Ok (Exit 1)).
Proof.
  split; [reflexivity|].
  apply (main_type_error (fun _ => lit "argument of type 'NoneType' is not iterable")
           (fun _ => []) (single_file (lit "myst.yml") YNone)
           Scenario.base_url Scenario.output_root (lit "myst.yml")).
  reflexivity.
Defined.

Lemma main_discovered_witness :
  discover_myst_config Scenario.fs = Ok (lit "myst.yml") /\
  hd_error (fst (main (fun _ => []) (fun _ => lit "_build/html") Scenario.fs
                   Scenario.base_url Scenario.output_root None))
  = Some (Echo Stdout (lit "Using config: myst.yml")).
Proof.
  split; [reflexivity|].
  rewrite (main_discovered (fun _ => []) (fun _ => lit "_build/html") Scenario.fs
             Scenario.base_url Scenario.output_root (lit "myst.yml"));
    reflexivity.
Defined.

(** * The emitter on a system that can refuse *)

(** ** Operations put to the system in a row *)

Lemma attempt_app (sys : Fallible.system) (done a b : list event) :
  Fallible.attempt sys done (a ++ b) =
  match Fallible.attempt sys done a with
  | (done', None) => Fallible.attempt sys done' b
  | (done', Some x) => (done', Some x)
  end.
Proof.
  revert done. induction a as [|e a IH]; intro done; [reflexivity|].
  simpl. destruct (sys done e); [reflexivity | apply IH].
Qed.

Lemma attempt_prefix (sys : Fallible.system) (done todo : list event) :
  exists k, fst (Fallible.attempt sys done todo) = done ++ firstn k todo.
Proof.
  revert done. induction todo as [|e todo IH]; intro done.
  - exists 0. simpl. now rewrite app_nil_r.
  - simpl. destruct (sys done e).
    + exists 0. simpl. now rewrite app_nil_r.
    + destruct (IH (done ++ [e])) as [k Hk]. exists (S k).
      rewrite Hk. simpl. now rewrite <- app_assoc.
Qed.

Lemma attempt_all (sys : Fallible.system) (done todo : list event) :
  snd (Fallible.attempt sys done todo) = None ->
  fst (Fallible.attempt sys done todo) = done ++ todo.
Proof.
  revert done. induction todo as [|e todo IH]; intro done.
  - simpl. now rewrite app_nil_r.
  - simpl. destruct (sys done e); [discriminate|].
    intro H. rewrite (IH _ H). now rewrite <- app_assoc.
Qed.

Lemma attempt_willing (sys : Fallible.system) (done todo : list event) :
  (forall d e, sys d e = None) ->
  Fallible.attempt sys done todo = (done ++ todo, None).
Proof.
  intro H. revert done. induction todo as [|e todo IH]; intro done.
  - simpl. now rewrite app_nil_r.
  - simpl. rewrite H, IH. now rewrite <- app_assoc.
Qed.

(** A loop whose body puts the operations of its element to the system and
    adds one to the counter. *)
Lemma for_each_attempt {A : Type} (sys : Fallible.system) (l : list A)
    (body : nat -> A -> Fallible.run nat) (events : A -> list event) :
  (forall x, In x l -> forall n done,
     body n x done =
     let (done', r) := Fallible.attempt sys done (events x) in
     (done', match r with None => Ok (n + 1) | Some e => Raise e end)) ->
  forall n done,
    for_each l n body done =
    let (done', r) := Fallible.attempt sys done (flat_map events l) in
    (done', match r with None => Ok (n + length l) | Some e => Raise e end).
Proof.
  induction l as [|x l IH]; intros H n done.
  - simpl. now rewrite Nat.add_0_r.
  - cbn [for_each bind Fallible.run_monad flat_map]. rewrite (H x (or_introl eq_refl)).
    rewrite attempt_app.
    destruct (Fallible.attempt sys done (events x)) as [done' [e|]]; [reflexivity|].
    rewrite IH by (intros y Hy; apply H; now right).
    destruct (Fallible.attempt sys done' (flat_map events l)) as [done'' [e|]];
      [reflexivity|].
    cbn [length]. do 2 f_equal. lia.
Qed.

Lemma create_then_echo (sys : Fallible.system) (old_slug new_url : str)
    (output_root : path) (line : str) (count : nat) (done : list event) :
  (Fallible.create_redirect_html sys old_slug new_url output_root ;;
   Fallible.perform sys (Echo Stdout line) ;;
   ret (count + 1)) done =
  let (done', r) :=
    Fallible.attempt sys done
      [Mkdir (Parent (Div output_root old_slug));
       WriteText (Div output_root old_slug) (redirect_html new_url);
       Echo Stdout line] in
  (done', match r with None => Ok (count + 1) | Some e => Raise e end).
Proof.
  unfold Fallible.create_redirect_html, Fallible.perform.
  cbn [bind ret Fallible.run_monad Fallible.attempt].
  destruct (sys done (Mkdir (Parent (Div output_root old_slug)))); [reflexivity|].
  destruct (sys (done ++ [Mkdir (Parent (Div output_root old_slug))])
              (WriteText (Div output_root old_slug) (redirect_html new_url)));
    [reflexivity|].
  destruct (sys _ (Echo Stdout line)); reflexivity.
Qed.

(** The whole run of [Fallible.generate_redirects] on a list of file paths:
    the operations of a run that nothing stops, put to the system until one
    is refused. *)
Lemma fallible_generate_redirects_run (sys : Fallible.system) (fs : filesystem)
    (base_url : str) (output_root : path) (myst_config_path : str)
    (file_paths : list str) (done : list event) :
  load_myst_toc fs myst_config_path = Ok (map YStr file_paths) ->
  Fallible.generate_redirects sys fs base_url output_root myst_config_path done =
  let todo :=
    match file_paths with
    | [] => [Echo Stderr (lit "No files found in TOC")]
    | index_file_path :: _ =>
        flat_map (redirect_events output_root (normalized base_url)
                    (slug_of index_file_path)) file_paths
    end in
  let (done', r) := Fallible.attempt sys done todo in
  (done', match r with None => Ok (length file_paths) | Some e => Raise e end).
Proof.
  intro Hload. unfold Fallible.generate_redirects.
  cbn [bind Fallible.run_monad Fallible.lift]. rewrite Hload.
  destruct file_paths as [|index_file_path rest].
  - cbn. unfold Fallible.perform. now destruct (sys done _).
  - change (map YStr (index_file_path :: rest))
      with (YStr index_file_path :: map YStr rest).
    cbn [Fallible.lift bind ret Fallible.run_monad result_monad Dyn.replace].
    change (YStr index_file_path :: map YStr rest)
      with (map YStr (index_file_path :: rest)).
    rewrite (for_each_attempt sys _ _
               (fun v => match v with
                         | YStr p => redirect_events output_root (normalized base_url)
                                       (slug_of index_file_path) p
                         | _ => []
                         end)).
    + rewrite flat_map_concat_map, map_map, <- flat_map_concat_map.
      rewrite length_map. reflexivity.
    + intros v Hv n d. apply in_map_iff in Hv as (p & <- & _).
      unfold normalized.
      destruct (Py.endswith (lit "/") base_url); apply create_then_echo.
Qed.

Lemma written_firstn_redirects (output_root : path) (base index_slug : str)
    (file_paths : list str) (k : nat) :
  exists j,
    written (firstn k (flat_map (redirect_events output_root base index_slug) file_paths))
    = firstn j (map (fun p => (Div output_root (old_url p),
                               redirect_html (new_url_for base index_slug p)))
                  file_paths).
Proof.
  revert k. induction file_paths as [|p l IH]; intro k.
  - exists 0. now rewrite firstn_nil.
  - cbn [flat_map map redirect_events app].
    destruct k as [|[|[|k]]]; try (exists 0; reflexivity).
    + exists 1. reflexivity.
    + destruct (IH k) as [j Hj]. exists (S j). cbn [firstn written]. now rewrite Hj.
Qed.

Lemma written_firstn_length (trace : list event) (k : nat) :
  length (written (firstn k trace)) <= length (written trace).
Proof.
  rewrite <- (firstn_skipn k trace) at 2. rewrite written_app, length_app. lia.
Qed.

(** What a run on a list of string paths comes to, whatever the system
    does: the pages written are those of a prefix of the list, a run that
    returns has done everything, and nothing stops a run on a system that
    refuses nothing. *)
Lemma fallible_generate_redirects_facts (sys : Fallible.system) (fs : filesystem)
    (base_url : str) (output_root : path) (myst_config_path : str)
    (file_paths : list str) :
  load_myst_toc fs myst_config_path = Ok (map YStr file_paths) ->
  let run := Fallible.generate_redirects sys fs base_url output_root myst_config_path [] in
  let page p :=
    (Div output_root (old_url p),
     redirect_html (new_url_for (normalized base_url) (slug_of (hd [] file_paths)) p)) in
  (exists j, written (fst run) = firstn j (map page file_paths)) /\
  (forall count, snd run = Ok count ->
     count = length file_paths /\ written (fst run) = map page file_paths) /\
  ((forall done e, sys done e = None) -> snd run = Ok (length file_paths)).
Proof.
  intros Hload run page. unfold run.
  rewrite (fallible_generate_redirects_run sys _ _ _ _ file_paths [] Hload).
  cbv zeta.
  destruct file_paths as [|index_file_path rest].
  - cbn [Fallible.attempt].
    destruct (sys [] (Echo Stderr (lit "No files found in TOC"))) as [x|] eqn:E; cbn.
    + split; [now exists 0|]. split; [discriminate|].
      intro H. rewrite H in E. discriminate E.
    + split; [now exists 0|]. split; [|reflexivity].
      intros count [= <-]. now split.
  - set (todo := flat_map _ (index_file_path :: rest)).
    pose proof (attempt_prefix sys [] todo) as [k Hk].
    pose proof (attempt_all sys [] todo) as Hall.
    pose proof (attempt_willing sys [] todo) as Hwill.
    destruct (Fallible.attempt sys [] todo) as [done' r]. cbn [fst snd app hd] in *.
    subst done'. split; [apply written_firstn_redirects|]. split.
    + destruct r; [discriminate|]. intros count [= <-]. split; [reflexivity|].
      rewrite <- (written_redirects output_root (normalized base_url)
                    (slug_of index_file_path)).
      fold todo. specialize (Hall eq_refl). now rewrite Hall.
    + intro H. specialize (Hwill H). now injection Hwill as _ ->.
Qed.

(** C8, as the code has it.  A run of [generate_redirects] that returns
    gives the length of the list of file paths, duplicates counted, and has
    written one redirect file for each entry; a run never writes more files
    than there are entries, and on a system that refuses no operation the
    run returns.  On the empty list nothing is written, and the run returns
    0 as soon as the notice is echoed. *)
Theorem generate_redirects_count (sys : Fallible.system) (fs : filesystem)
    (base_url : str) (output_root : path) (myst_config_path : str)
    (file_paths : list str) :
  load_myst_toc fs myst_config_path = Ok (map YStr file_paths) ->
  let run := Fallible.generate_redirects sys fs base_url output_root myst_config_path [] in
  (forall count, snd run = Ok count ->
     count = length file_paths /\ length (written (fst run)) = length file_paths) /\
  length (written (fst run)) <= length file_paths /\
  ((forall done e, sys done e = None) -> snd run = Ok (length file_paths)) /\
  (file_paths = [] ->
     written (fst run) = [] /\
     (sys [] (Echo Stderr (lit "No files found in TOC")) = None ->
      run = ([Echo Stderr (lit "No files found in TOC")], Ok 0))).
Proof.
  intros Hload run.
  destruct (fallible_generate_redirects_facts sys fs base_url output_root
              myst_config_path file_paths Hload) as ([j Hj] & Hret & Hwill).
  fold run in Hj, Hret, Hwill.
  split.
  { intros n Hn. destruct (Hret n Hn) as [Hcount Hwritten].
    split; [exact Hcount|]. rewrite Hwritten. apply length_map. }
  split; [rewrite Hj, length_firstn, length_map; lia|].
  split; [exact Hwill|].
  intros ->. split; [rewrite Hj; apply firstn_nil|].
  intro Hecho. unfold run.
  rewrite (fallible_generate_redirects_run sys _ _ _ _ [] [] Hload).
  cbn. now rewrite Hecho.
Qed.

Lemma generate_redirects_count_witness :
  load_myst_toc Scenario.fs (lit "myst.yml") = Ok (map YStr Scenario.file_paths) /\
  snd (Fallible.generate_redirects Fallible.willing Scenario.fs Scenario.base_url
         Scenario.output_root (lit "myst.yml") []) = Ok 2.
Proof.
  split; [reflexivity|].
  apply (generate_redirects_count Fallible.willing Scenario.fs Scenario.base_url
           Scenario.output_root (lit "myst.yml") Scenario.file_paths).
  - reflexivity.
  - reflexivity.
Defined.

(** C8, as stated, fails: on the list [a.md], [a.html/b.md] the old URL of
    the second entry goes through the file written for the first, and on a
    system on which a file is not a directory the run stops there: one file
    is written for two entries and no count is returned. *)
Lemma generate_redirects_collision :
  let fs := single_file (lit "myst.yml")
              (config_of_toc (toc_to_yaml [Entry (Some (lit "a.md")) None;
                                           Entry (Some (lit "a.html/b.md")) None])) in
  let run := Fallible.generate_redirects Fallible.file_is_no_directory fs
               (lit "https://example.com/") (Path (lit "out")) (lit "myst.yml") [] in
  load_myst_toc fs (lit "myst.yml") = Ok (map YStr [lit "a.md"; lit "a.html/b.md"]) /\
  run = ([Mkdir (Parent (Div (Path (lit "out")) (lit "a.html")));
          WriteText (Div (Path (lit "out")) (lit "a.html"))
            (redirect_html (lit "https://example.com/"));
          Echo Stdout (lit "a.html -> https://example.com/")],
         Raise OtherError) /\
  snd run <> Ok 2 /\
  length (written (fst run)) = 1.
Proof.
  cbv zeta. split; [reflexivity|].
  assert (E : Fallible.generate_redirects Fallible.file_is_no_directory
                (single_file (lit "myst.yml")
                   (config_of_toc (toc_to_yaml [Entry (Some (lit "a.md")) None;
                                                Entry (Some (lit "a.html/b.md")) None])))
                (lit "https://example.com/") (Path (lit "out")) (lit "myst.yml") []
              = ([Mkdir (Parent (Div (Path (lit "out")) (lit "a.html")));
                  WriteText (Div (Path (lit "out")) (lit "a.html"))
                    (redirect_html (lit "https://example.com/"));
                  Echo Stdout (lit "a.html -> https://example.com/")],
                 Raise OtherError))
    by (vm_compute; reflexivity).
  rewrite E. repeat split. discriminate.
Qed.

(** ** The two emitters agree on a system that refuses nothing *)

Lemma agrees_ret {A : Type} (a : A) : Fallible.agrees (ret a) (ret a).
Proof. intro done. cbn. now rewrite app_nil_r. Qed.

Lemma agrees_lift {A : Type} (r : result A) : Fallible.agrees (Fallible.lift r) (lift r).
Proof. intro done. cbn. unfold Fallible.lift. now rewrite app_nil_r. Qed.

Lemma agrees_perform (e : event) :
  Fallible.agrees (Fallible.perform Fallible.willing e) (emit e).
Proof. intro done. reflexivity. Qed.

Lemma agrees_bind {A B : Type} (c' : Fallible.run A) (c : io A)
    (k' : A -> Fallible.run B) (k : A -> io B) :
  Fallible.agrees c' c -> (forall a, Fallible.agrees (k' a) (k a)) ->
  Fallible.agrees (bind c' k') (bind c k).
Proof.
  intros Hc Hk done. cbn [bind Fallible.run_monad io_monad]. rewrite Hc.
  destruct c as [t [a|e]]; cbn [fst snd]; [|reflexivity].
  rewrite Hk. destruct (k a) as [t' r]. cbn. now rewrite app_assoc.
Qed.

Lemma agrees_try_except {A : Type} (c' : Fallible.run A) (c : io A)
    (h' : exn -> Fallible.run A) (h : exn -> io A) :
  Fallible.agrees c' c -> (forall e, Fallible.agrees (h' e) (h e)) ->
  Fallible.agrees (Fallible.try_except c' h') (try_except c h).
Proof.
  intros Hc Hh done. unfold Fallible.try_except, try_except. rewrite Hc.
  destruct c as [t [a|e]]; cbn [fst snd]; [reflexivity|].
  rewrite Hh. destruct (h e) as [t' r]. cbn. now rewrite app_assoc.
Qed.

Lemma agrees_for_each {A S : Type} (l : list A) (vars : S)
    (body' : S -> A -> Fallible.run S) (body : S -> A -> io S) :
  (forall v x, Fallible.agrees (body' v x) (body v x)) ->
  Fallible.agrees (for_each l vars body') (for_each l vars body).
Proof.
  intro H. revert vars. induction l as [|x l IH]; intro vars.
  - apply agrees_ret.
  - cbn [for_each]. apply agrees_bind; [apply H | exact IH].
Qed.

Lemma agrees_create_redirect_html (old_slug new_url : str) (output_root : path) :
  Fallible.agrees
    (Fallible.create_redirect_html Fallible.willing old_slug new_url output_root)
    (create_redirect_html old_slug new_url output_root).
Proof.
  unfold Fallible.create_redirect_html, create_redirect_html. cbv zeta.
  apply agrees_bind; [apply agrees_perform|]. intros _.
  apply agrees_bind; [apply agrees_perform|]. intros _. apply agrees_ret.
Qed.

(** On a system that refuses nothing [Fallible.generate_redirects] is
    [generate_redirects]. *)
Lemma agrees_generate_redirects (fs : filesystem) (base_url : str)
    (output_root : path) (myst_config_path : str) :
  Fallible.agrees
    (Fallible.generate_redirects Fallible.willing fs base_url output_root myst_config_path)
    (generate_redirects fs base_url output_root myst_config_path).
Proof.
  unfold Fallible.generate_redirects, generate_redirects. cbv zeta.
  apply agrees_bind; [apply agrees_lift|]. intros [|index_file_path rest].
  - apply agrees_bind; [apply agrees_perform|]. intros _. apply agrees_ret.
  - apply agrees_bind; [apply agrees_lift|]. intro index_slug.
    apply agrees_for_each. intros count file_path.
    apply agrees_bind; [apply agrees_lift|]. intro old_slug.
    apply agrees_bind; [apply agrees_lift|]. intro path_without_ext.
    apply agrees_bind; [apply agrees_create_redirect_html|]. intros _.
    apply agrees_bind; [apply agrees_perform|]. intros _. apply agrees_ret.
Qed.

(** And [Fallible.main] is [main]. *)
Lemma agrees_main (message_of : exn -> str) (path_text : path -> str)
    (fs : filesystem) (base_url : str) (output_dir : path) (myst_config : option str) :
  Fallible.agrees
    (Fallible.main Fallible.willing message_of path_text fs base_url output_dir myst_config)
    (main message_of path_text fs base_url output_dir myst_config).
Proof.
  unfold Fallible.main, main.
  apply agrees_bind.
  - destruct myst_config as [p|]; [apply agrees_ret|].
    apply agrees_try_except.
    + apply agrees_bind; [apply agrees_lift|]. intro p.
      apply agrees_bind; [apply agrees_perform|]. intros _. apply agrees_ret.
    + intros [msg|msg| | |]; try apply agrees_lift.
      apply agrees_bind; [apply agrees_perform|]. intros _. apply agrees_ret.
  - intros [p|exit]; [|apply agrees_ret].
    apply agrees_try_except.
    + apply agrees_bind; [apply agrees_generate_redirects|]. intro count.
      apply agrees_bind; [apply agrees_perform|]. intros _. apply agrees_ret.
    + intros [msg|msg| | |];
        repeat (apply agrees_bind; [apply agrees_perform|]; intros _);
        apply agrees_ret.
Qed.

(** ** Runs that are cut short *)

Lemma for_each_run_app {A S : Type} (a b : list A) (vars : S)
    (f : S -> A -> Fallible.run S) (done : list event) :
  for_each (a ++ b) vars f done =
  match for_each a vars f done with
  | (done', Ok vars') => for_each b vars' f done'
  | (done', Raise e) => (done', Raise e)
  end.
Proof.
  revert vars done. induction a as [|x a IH]; intros vars done; [reflexivity|].
  cbn [app for_each bind Fallible.run_monad].
  destruct (f vars x done) as [done' [vars'|e]]; [apply IH | reflexivity].
Qed.

(** X14. When an entry of the list is not a string, no run of
    [generate_redirects] returns a count: it stops with an exception at that
    entry at the latest.  What has been done by then is the beginning of the
    operations for the entries before it, nothing is done for the entries
    after it, and nothing at all when it is the first entry. *)
Theorem generate_redirects_stops_at_non_string (sys : Fallible.system)
    (fs : filesystem) (base_url : str) (output_root : path) (myst_config_path : str)
    (before : list str) (entry : yaml) (after : list yaml) :
  load_myst_toc fs myst_config_path = Ok (map YStr before ++ entry :: after) ->
  is_str entry = false ->
  let run := Fallible.generate_redirects sys fs base_url output_root myst_config_path [] in
  (exists e, snd run = Raise e) /\
  (exists k, fst run =
             firstn k (flat_map (redirect_events output_root (normalized base_url)
                                   (slug_of (hd [] before))) before)).
Proof.
  intros Hload Hentry run. unfold run, Fallible.generate_redirects.
  cbn [bind Fallible.run_monad Fallible.lift]. rewrite Hload.
  destruct before as [|index_file_path rest].
  - destruct entry; try discriminate Hentry; cbn;
      (split; [now eexists | now exists 0]).
  - change (map YStr (index_file_path :: rest) ++ entry :: after)
      with (YStr index_file_path :: (map YStr rest ++ entry :: after)).
    cbn [Fallible.lift bind ret Fallible.run_monad result_monad Dyn.replace].
    change (YStr index_file_path :: (map YStr rest ++ entry :: after))
      with (map YStr (index_file_path :: rest) ++ entry :: after).
    rewrite for_each_run_app.
    rewrite (for_each_attempt sys _ _
               (fun v => match v with
                         | YStr p => redirect_events output_root (normalized base_url)
                                       (slug_of index_file_path) p
                         | _ => []
                         end)).
    + rewrite flat_map_concat_map, map_map, <- flat_map_concat_map.
      cbn [hd].
      set (todo := flat_map _ (index_file_path :: rest)).
      destruct (attempt_prefix sys [] todo) as [k Hk].
      destruct (Fallible.attempt sys [] todo) as [done' [x|]]; cbn [fst] in Hk;
        subst done'; cbn [app].
      * split; [now eexists | now exists k].
      * cbn [for_each bind Fallible.run_monad].
        destruct entry; try discriminate Hentry; cbn;
          (split; [now eexists | now exists k]).
    + intros v Hv n d. apply in_map_iff in Hv as (p & <- & _).
      unfold normalized.
      destruct (Py.endswith (lit "/") base_url); apply create_then_echo.
Qed.

Lemma generate_redirects_stops_at_non_string_witness :
  load_myst_toc
    (single_file (lit "myst.yml")
       (config_of_toc (YList [YDict [(YStr (lit "file"), YStr (lit "overview.md"))];
                              YDict [(YStr (lit "file"), YInt 3)]])))
    (lit "myst.yml")
  = Ok (map YStr [lit "overview.md"] ++ YInt 3 :: []) /\
  is_str (YInt 3) = false /\
  exists e,
    snd (Fallible.generate_redirects Fallible.willing
           (single_file (lit "myst.yml")
              (config_of_toc
                 (YList [YDict [(YStr (lit "file"), YStr (lit "overview.md"))];
                         YDict [(YStr (lit "file"), YInt 3)]])))
           Scenario.base_url Scenario.output_root (lit "myst.yml") [])
    = Raise e.
Proof.
  split; [reflexivity|]. split; [reflexivity|].
  apply (generate_redirects_stops_at_non_string Fallible.willing _
           Scenario.base_url Scenario.output_root (lit "myst.yml")
           [lit "overview.md"] (YInt 3) []);
    reflexivity.
Defined.

(** X17. Whatever the system refuses, the pages that [generate_redirects]
    writes are, in the order of the list, those of the entries up to some
    point; so the first page written, if there is one, is that of the first
    entry, at its old URL, and it redirects to the base URL itself. *)
Theorem generate_redirects_index (sys : Fallible.system) (fs : filesystem)
    (base_url : str) (output_root : path) (myst_config_path : str)
    (index_file_path : str) (others : list str) :
  load_myst_toc fs myst_config_path = Ok (map YStr (index_file_path :: others)) ->
  let run := Fallible.generate_redirects sys fs base_url output_root myst_config_path [] in
  let base := if Py.endswith (lit "/") base_url then base_url else base_url ++ lit "/" in
  let page file_path :=
    let new_slug := sanitize_for_myst_url (extensionless file_path) in
    (Div output_root (old_url file_path),
     redirect_html
       (if str_eqb new_slug (sanitize_for_myst_url (extensionless index_file_path))
        then base else base ++ new_slug ++ lit "/")) in
  (exists k, written (fst run) = firstn k (map page (index_file_path :: others))) /\
  (written (fst run) = [] \/
   exists more,
     written (fst run)
     = (Div output_root (old_url index_file_path), redirect_html base) :: more).
Proof.
  intros Hload run base page.
  destruct (fallible_generate_redirects_facts sys fs base_url output_root
              myst_config_path _ Hload) as ([k Hk] & _).
  fold run in Hk. cbn [hd] in Hk.
  assert (E : written (fst run) = firstn k (map page (index_file_path :: others)))
    by exact Hk.
  split; [now exists k|].
  rewrite E. destruct k as [|k]; [now left|]. right.
  cbn [map firstn]. eexists. unfold page at 1. cbv zeta. now rewrite str_eqb_refl.
Qed.

Lemma generate_redirects_index_witness :
  load_myst_toc Scenario.fs (lit "myst.yml")
  = Ok (map YStr (lit "overview.md" :: [lit "content/01-intro.md"])) /\
  (written (fst (Fallible.generate_redirects Fallible.willing Scenario.fs
                   (lit "https://example.com") Scenario.output_root (lit "myst.yml") []))
   = [] \/
   exists more,
     written (fst (Fallible.generate_redirects Fallible.willing Scenario.fs
                     (lit "https://example.com") Scenario.output_root (lit "myst.yml") []))
     = (Div Scenario.output_root (old_url (lit "overview.md")),
        redirect_html
          (if Py.endswith (lit "/") (lit "https://example.com")
           then lit "https://example.com" else lit "https://example.com" ++ lit "/"))
       :: more).
Proof.
  split; [reflexivity|].
  apply (generate_redirects_index Fallible.willing Scenario.fs (lit "https://example.com")
           Scenario.output_root (lit "myst.yml") (lit "overview.md")
           [lit "content/01-intro.md"]).
  reflexivity.
Defined.

(** X18. From the document to the files: on a configuration whose
    [project.toc] is a tree of entries, the files that [generate_redirects]
    writes are, in pre-order, the old URLs of the files of the tree up to
    some point; a run that returns has written them all and gives their
    number, and on a system that refuses nothing the run returns. *)
Theorem generate_redirects_of_tree (sys : Fallible.system) (p base_url : str)
    (output_root : path) (toc : list toc_entry) :
  let run := Fallible.generate_redirects sys
               (single_file p (config_of_toc (toc_to_yaml toc)))
               base_url output_root p [] in
  let files := map (fun file => Div output_root (old_url file)) (preorder_toc toc) in
  (exists k, map fst (written (fst run)) = firstn k files) /\
  (forall count, snd run = Ok count ->
     count = length (preorder_toc toc) /\ map fst (written (fst run)) = files) /\
  ((forall done e, sys done e = None) -> snd run = Ok (length (preorder_toc toc))).
Proof.
  intros run files.
  assert (Hload : load_myst_toc (single_file p (config_of_toc (toc_to_yaml toc))) p
                  = Ok (map YStr (preorder_toc toc)))
    by (rewrite load_single_file; apply flatten_toc_preorder).
  destruct (fallible_generate_redirects_facts sys _ base_url output_root p _ Hload)
    as ([k Hk] & Hret & Hwill).
  fold run in Hk, Hret, Hwill. split; [|split].
  - exists k. rewrite Hk, <- firstn_map, map_map. reflexivity.
  - intros count Hc. destruct (Hret count Hc) as [-> Hw]. split; [reflexivity|].
    rewrite Hw, map_map. reflexivity.
  - exact Hwill.
Qed.

(** ** [main] on a system that can refuse *)

Section FallibleMain.

Variable sys : Fallible.system.
Variable message_of : exn -> str.
Variable path_text : path -> str.


(** X25. When the loader returns a list of strings, the run of
    [generate_redirects] returns and the summary is echoed, [main] has done
    what [generate_redirects] did, then echoed the summary with the length
    of the list, and it returns. *)
Theorem main_success (fs : filesystem) (base_url : str) (output_dir : path)
    (p : str) (file_paths : list str) (count : nat) :
  let run := Fallible.generate_redirects sys fs base_url output_dir p [] in
  let summary :=
    Echo Stdout (nl ++ lit "Generated " ++ decimal (length file_paths) ++
                 lit " redirect files in " ++ path_text output_dir) in
  load_myst_toc fs p = Ok (map YStr file_paths) ->
  snd run = Ok count ->
  sys (fst run) summary = None ->
  Fallible.main sys message_of path_text fs base_url output_dir (Some p) []
  = (fst run ++ [summary], Ok Returned).
Proof.
  intros run summary Hload Hrun Hecho.
  destruct (fallible_generate_redirects_facts sys fs base_url output_dir p file_paths Hload)
    as (_ & Hret & _).
  fold run in Hret. destruct (Hret count Hrun) as [-> _].
  unfold Fallible.main, Fallible.try_except, Fallible.perform.
  cbn [bind ret Fallible.run_monad]. fold run.
  destruct run as [done [n|e]]; cbn [fst snd] in *; [|discriminate Hrun].
  injection Hrun as ->. fold summary. now rewrite Hecho.
Qed.

End FallibleMain.


Lemma main_success_witness :
  load_myst_toc Scenario.fs (lit "myst.yml") = Ok (map YStr Scenario.file_paths) /\
  snd (Fallible.main Fallible.willing (fun _ => []) (fun _ => lit "_build/html")
         Scenario.fs Scenario.base_url Scenario.output_root (Some (lit "myst.yml")) [])
  = Ok Returned.
Proof.
  split; [reflexivity|].
  rewrite (main_success Fallible.willing (fun _ => []) (fun _ => lit "_build/html")
             Scenario.fs Scenario.base_url Scenario.output_root (lit "myst.yml")
             Scenario.file_paths 2);
    reflexivity.
Defined.

(** * The sanitizer and the loader, once more *)

Lemma lower_fixed_not_upper (c : ascii) : Py.lower_char c = c -> Py.is_upper c = false.
Proof. each_char c; intro H; try reflexivity; discriminate H. Qed.

Lemma map_fixed {A : Type} (f : A -> A) (l : list A) :
  map f l = l -> forall x, In x l -> f x = x.
Proof.
  induction l as [|y l IH]; [intros _ x []|].
  simpl. intros [= Hy Hl] x [<-|Hx]; [exact Hy | now apply IH].
Qed.

(** X2. A string is left unchanged by the sanitizer exactly when [lower]
    leaves it unchanged, it holds no space, no underscore and no two hyphens
    in a row, and each of its components is empty or starts with a character
    that is no digit and no hyphen and does not end with a hyphen. *)
Theorem sanitize_fixed_point_iff (s : str) :
  sanitize_for_myst_url s = s <->
  Py.lower s = s /\
  ~ In space s /\
  ~ In underscore s /\
  Dyn.is_substring (lit "--") s = false /\
  Forall (fun component => canonical component = true) (Py.split slash s).
Proof.
  split.
  - intro H. pose proof (sanitize_sanitized s) as Hs. rewrite H in Hs.
    unfold sanitized in Hs.
    apply andb_true_iff in Hs as [Hs Hcanon]. apply andb_true_iff in Hs as [Hchars Hdh].
    apply negb_true_iff in Hdh.
    destruct (slug_chars_shape s Hchars) as (H1 & _ & H3 & H4).
    repeat split; try assumption.
    + now rewrite is_substring_double_hyphen.
    + apply Forall_forall. rewrite forallb_forall in Hcanon. exact Hcanon.
  - intros (Hlower & Hspace & Hunder & Hdh & Hcanon).
    apply sanitized_fixed_point. unfold sanitized.
    rewrite is_substring_double_hyphen in Hdh. rewrite Hdh. cbn [negb].
    rewrite !andb_true_iff. repeat split.
    + apply forallb_forall. intros c Hc. unfold slug_char.
      rewrite (lower_fixed_not_upper c (map_fixed _ _ Hlower c Hc)). cbn [negb andb].
      apply andb_true_iff. split; apply negb_true_iff, Ascii.eqb_neq; congruence.
    + apply forallb_forall. rewrite Forall_forall in Hcanon. exact Hcanon.
Qed.

(** X3. The slug is never longer than the lowered path: no step after
    [lower] adds a character. *)
Theorem sanitize_never_longer (path : str) :
  length (sanitize_for_myst_url path) <= length (Py.lower path).
Proof.
  rewrite sanitize_is_spec. unfold Spec.sanitize, Spec.step6_rejoin.
  eapply Nat.le_trans; [apply length_join_map, length_step45|].
  rewrite join_split.
  eapply Nat.le_trans; [apply length_step3|].
  unfold Spec.step2_hyphenate, Spec.step1_lowercase, Py.lower. now rewrite length_map.
Qed.

(** X10. [flatten_toc] never raises [KeyError]: a [file] or [children] key
    is read only after it has been found. *)
Theorem flatten_toc_no_key_error (toc : yaml) (key : str) :
  flatten_toc toc <> Raise (KeyError key).
Proof. intro H. apply flatten_toc_type_error in H. discriminate H. Qed.

(** X13. A [KeyError] out of [load_myst_toc] is the one of its own check of
    the structure, with the message of that check. *)
Theorem load_myst_toc_key_error (fs : filesystem) (p msg : str) :
  load_myst_toc fs p = Raise (KeyError msg) ->
  msg = structure_message.
Proof.
  unfold load_myst_toc, path_exists, safe_load.
  destruct (fs p) as [[config|]|]; simpl; try discriminate.
  destruct (Dyn.contains (lit "project") config) as [has_project|e1] eqn:E1; simpl;
    [|intros [= ->]; now apply contains_type_error in E1].
  destruct has_project; simpl; [|now intros [= <-]].
  destruct (Dyn.getitem config (lit "project")) as [project|e2] eqn:E2; simpl;
    [|intros [= ->]; now apply (getitem_after_contains _ _ _ E1) in E2].
  destruct (Dyn.contains (lit "toc") project) as [has_toc|e3] eqn:E3; simpl;
    [|intros [= ->]; now apply contains_type_error in E3].
  destruct has_toc; simpl; [|now intros [= <-]].
  destruct (Dyn.getitem project (lit "toc")) as [toc|e4] eqn:E4; simpl;
    [|intros [= ->]; now apply (getitem_after_contains _ _ _ E3) in E4].
  intro F. now apply flatten_toc_type_error in F.
Qed.

Lemma load_myst_toc_key_error_witness :
  load_myst_toc (single_file (lit "myst.yml") (YDict [])) (lit "myst.yml")
  = Raise (KeyError (lit "MyST config must have 'project.toc' structure")) /\
  lit "MyST config must have 'project.toc' structure" = structure_message.
Proof.
  split; [reflexivity|].
  apply (load_myst_toc_key_error (single_file (lit "myst.yml") (YDict [])) (lit "myst.yml")
           (lit "MyST config must have 'project.toc' structure")).
  reflexivity.
Defined.
